(** * jsonparser: the event-stream parser of go-junit-report

    A shallow embedding of [jsonparser/parser.go] and the properties of
    [Parse] and [Failures].

    Go pointers ([*Test], [*Package]) are modelled as indices into the
    insertion-ordered slices that own the entities: [findTest] and
    [findPackage] return the index of the entry the Go code returns a pointer
    to, and a write through the pointer is an in-place update at that index.
    Entries are only ever appended, so an index names the same entity for the
    whole run. *)

From Stdlib Require Import ZArith Floats.SpecFloat.
From stdpp Require Import base list strings.

Open Scope Z_scope.

(** ** Machine numbers *)

(** [time.Duration] and [int] are 64-bit signed integers. *)
Definition min_int64 : Z := - 2 ^ 63.
Definition max_int64 : Z := 2 ^ 63 - 1.
Definition wrap_int64 (z : Z) : Z := (z + 2 ^ 63) mod 2 ^ 64 - 2 ^ 63.

(** [float32] is IEEE 754 binary32: 24 bits of precision, exponents below 128. *)
Definition float32 : Type := spec_float.
Definition f32_prec : Z := 24.
Definition f32_emax : Z := 128.

(** Conversion of an integer constant to [float32] (round to nearest even). *)
Definition float32_of_Z (z : Z) : float32 :=
  binary_normalize f32_prec f32_emax z 0 false.

Definition float32_mul (x y : float32) : float32 :=
  SFmul f32_prec f32_emax x y.

(** The integer part of a finite float (the fraction is discarded), [None]
    for infinities and NaN. *)
Definition float32_trunc (f : float32) : option Z :=
  match f with
  | S754_zero _ => Some 0
  | S754_finite s m e => Some (cond_Zopp s (Z.shiftl (Z.pos m) e))
  | S754_infinity _ => None
  | S754_nan => None
  end.

(** [time.Second] and [time.Millisecond], in nanoseconds. *)
Definition Second : Z := 1000000000.
Definition Millisecond : Z := 1000000.

(** ** Data model *)

Inductive Result : Type := PASS | FAIL | SKIP.

Global Instance Result_eq_dec : EqDecision Result.
Proof. solve_decision. Defined.

Record Benchmark : Type := mkBenchmark {
  Benchmark_Name : string;
  Benchmark_Duration : Z;
  Benchmark_Bytes : Z;
  Benchmark_Allocs : Z
}.

Record Test : Type := mkTest {
  Test_Name : string;
  Test_Package : string;
  Test_Duration : Z;
  Test_Result : Result;
  Test_Output : list string;
  Test_SubtestIndent : string;
  Test_Time : Z
}.

Record Package : Type := mkPackage {
  Package_Name : string;
  Package_Duration : Z;
  Package_Tests : list Test;
  Package_Benchmarks : list Benchmark;
  Package_CoveragePct : string;
  Package_Time : Z
}.

Record Report : Type := mkReport {
  Packages : list Package
}.

(** [LineOutput_Time] stands for the decoded [time.Time]; the parser never
    reads it. *)
Record LineOutput : Type := mkLineOutput {
  LineOutput_Time : Z;
  Action : string;
  LineOutput_Package : string;
  LineOutput_Test : string;
  Output : string;
  Elapsed : float32
}.

(** The zero value of [LineOutput], what [var lineoutput LineOutput] holds. *)
Definition LineOutput_zero : LineOutput :=
  mkLineOutput 0 "" "" "" "" (S754_zero false).

(** Field updates through a pointer. *)
Definition Test_set_Output (o : list string) (t : Test) : Test :=
  mkTest (Test_Name t) (Test_Package t) (Test_Duration t) (Test_Result t)
         o (Test_SubtestIndent t) (Test_Time t).
Definition Test_set_Result (r : Result) (t : Test) : Test :=
  mkTest (Test_Name t) (Test_Package t) (Test_Duration t) r
         (Test_Output t) (Test_SubtestIndent t) (Test_Time t).
Definition Test_set_Duration (d : Z) (t : Test) : Test :=
  mkTest (Test_Name t) (Test_Package t) d (Test_Result t)
         (Test_Output t) (Test_SubtestIndent t) (Test_Time t).
Definition Package_set_Duration (d : Z) (p : Package) : Package :=
  mkPackage (Package_Name p) d (Package_Tests p) (Package_Benchmarks p)
            (Package_CoveragePct p) (Package_Time p).
Definition Package_set_Tests (ts : list Test) (p : Package) : Package :=
  mkPackage (Package_Name p) (Package_Duration p) ts (Package_Benchmarks p)
            (Package_CoveragePct p) (Package_Time p).

(** ** The input stream *)

(** Errors of [reader.ReadLine]: [io.EOF] or any other read failure. *)
Inductive error : Type :=
  | io_EOF
  | read_failure (msg : string).

Global Instance error_eq_dec : EqDecision error.
Proof. solve_decision. Defined.

(** [json.Unmarshal] is Go library code. [Parse] calls it on a zero-valued
    [LineOutput] and never looks at the error, so a [line] is given by what
    the call does to that value and whether it reports an error:
    - a record that decodes: the event is stored, no error;
    - a record that decodes in part (a field of the wrong type, a number out
      of range): the fields that decode are stored, the others are left as
      they were, and an error is reported; [ev] is the value then held;
    - anything else (not valid JSON, not an object): nothing is stored and
      an error is reported. *)
Inductive line : Type :=
  | Record_line (ev : LineOutput)
  | Partial_line (ev : LineOutput)
  | Malformed_line.

Inductive json_error : Type := SyntaxError | UnmarshalTypeError.

Definition Unmarshal (l : line) (v : LineOutput) : LineOutput * option json_error :=
  match l with
  | Record_line ev => (ev, None)
  | Partial_line ev => (ev, Some UnmarshalTypeError)
  | Malformed_line => (v, Some SyntaxError)
  end.

(** The reader, as the successive results of [reader.ReadLine]: a line or an
    error, never both. A [line] is whatever one call returns, so a line
    longer than the buffer is several of them ([Parse] ignores [isPrefix]).
    A reader whose results are used up is at end of stream: its next result
    is [io.EOF]. *)
Definition Reader : Type := list (line + error).

(** ** Lookups *)

(** [findTest]: the loop [for i := len(tests) - 1; i >= 0; i--], with [n]
    the number of indices still to visit. *)
Fixpoint findTest_from (tests : list Test) (name : string) (n : nat) : option nat :=
  match n with
  | O => None
  | S i =>
      match tests !! i with
      | Some t => if String.eqb (Test_Name t) name then Some i
                  else findTest_from tests name i
      | None => None
      end
  end.

Definition findTest (tests : list Test) (name : string) : option nat :=
  findTest_from tests name (length tests).

Fixpoint findPackage_from (packages : list Package) (name : string) (n : nat) : option nat :=
  match n with
  | O => None
  | S i =>
      match packages !! i with
      | Some p => if String.eqb (Package_Name p) name then Some i
                  else findPackage_from packages name i
      | None => None
      end
  end.

Definition findPackage (packages : list Package) (name : string) : option nat :=
  findPackage_from packages name (length packages).

(** ** Failures *)

(** The counter stays far below the range of [int]: it is bounded by the
    number of tests held in memory. *)
Definition Failures (r : Report) : Z :=
  fold_left
    (fun count p =>
       fold_left
         (fun count t => if decide (Test_Result t = FAIL) then count + 1 else count)
         (Package_Tests p) count)
    (Packages r) 0.


(** ** Reverse lookup over a list keyed by name *)

(** [findTest] and [findPackage] are the same scan over entries keyed by
    their name. [rfind] is that scan, and [upsert] the pattern both callers
    build on it: find the entry or append a fresh one, then update it in
    place. *)
Section KeyedDefs.
Context {A : Type} (key : A -> string).

Fixpoint rfind_from (l : list A) (name : string) (n : nat) : option nat :=
  match n with
  | O => None
  | S i =>
      match l !! i with
      | Some x => if String.eqb (key x) name then Some i
                  else rfind_from l name i
      | None => None
      end
  end.

Definition rfind (l : list A) (name : string) : option nat :=
  rfind_from l name (length l).

Definition upsert (l : list A) (name : string) (fresh : A) (f : A -> A) : list A :=
  match rfind l name with
  | Some i => alter f i l
  | None => l ++ [f fresh]
  end.

End KeyedDefs.

(** ** Concrete inputs *)

(** One choice of the implementation-dependent conversion result: x86-64
    yields the smallest [int64]. *)
Definition x86_64_unrepresentable (f : float32) : Z := min_int64.

(** The [float32] nearest to the decimal fraction [num / den], which is what
    decoding a JSON number stores into a [float32] field. Both [num] and
    [den] must be below [2 ^ 24], so that they convert exactly and the
    division rounds once. *)
Definition float32_of_ratio (num den : Z) : float32 :=
  SFdiv f32_prec f32_emax (float32_of_Z num) (float32_of_Z den).

Definition no_Elapsed : float32 := S754_zero false.

Definition newline : string := String (Ascii.ascii_of_nat 10) EmptyString.

(** The four lines of the example of section 8 of the spec. *)
Definition example_stream : Reader :=
  [ inl (Record_line (mkLineOutput 0 "run" "p" "t" "" no_Elapsed));
    inl (Record_line (mkLineOutput 0 "output" "p" "t" ("ok" +:+ newline) no_Elapsed));
    inl (Record_line (mkLineOutput 0 "pass" "p" "t" "" (float32_of_ratio 1 100)));
    inl (Record_line (mkLineOutput 0 "pass" "p" "" "" (float32_of_ratio 2 100))) ].

Definition example_test : Test :=
  mkTest "t" "p" (10 * Millisecond) PASS ["ok" +:+ newline] "" 0.

Definition example_package : Package :=
  mkPackage "p" (20 * Millisecond) [example_test] [] "" 0.

(** A single test-scoped line: no package-scoped event names package "p". *)
Definition lone_test_stream : Reader :=
  [ inl (Record_line (mkLineOutput 0 "run" "p" "t" "" no_Elapsed)) ].

(** Two "run" events for test "T", then an "output" event for it. *)
Definition repeated_run_lines : list line :=
  [ Record_line (mkLineOutput 0 "run" "p" "T" "" no_Elapsed);
    Record_line (mkLineOutput 0 "run" "p" "T" "" no_Elapsed);
    Record_line (mkLineOutput 0 "output" "p" "T" "x" no_Elapsed) ].

(** A garbage line between two "pass" events, one for a test and one for a
    package. *)
Definition garbage_stream : Reader :=
  [ inl (Record_line (mkLineOutput 0 "pass" "p" "t" "" (float32_of_ratio 1 100)));
    inl Malformed_line;
    inl (Record_line (mkLineOutput 0 "pass" "q" "" "" (float32_of_ratio 2 100))) ].

Definition garbage_report : Report :=
  mkReport
    [ mkPackage "" 0 [] [] "" 0;
      mkPackage "q" (20 * Millisecond) [] [] "" 0;
      mkPackage "p" 0 [mkTest "t" "p" (10 * Millisecond) PASS [] "" 0] [] "" 0 ].





(** A read failure after two lines. *)
Definition broken_lines : list line :=
  [ Record_line (mkLineOutput 0 "run" "p" "t" "" no_Elapsed);
    Record_line (mkLineOutput 0 "pass" "p" "t" "" (float32_of_ratio 1 100)) ].

Definition broken_pipe : error := read_failure "broken pipe".

(** The output fragment [out] for test [name] sits on a later entry of that
    name and not on an earlier one. *)
Definition output_on_later_entry (ts : list Test) (name out : string) : Prop :=
  exists i j t1 t2,
    (i < j)%nat /\ ts !! i = Some t1 /\ ts !! j = Some t2 /\
    Test_Name t1 = name /\ Test_Name t2 = name /\
    out ∈ Test_Output t2 /\ out ∉ Test_Output t1.

(** ** Parse *)

Section Parse.

(** The Go specification leaves the result of converting a floating-point
    value to an integer type that cannot represent it to the implementation.
    [unrepresentable] is that choice. *)
Variable unrepresentable : float32 -> Z.

(** [time.Duration(f)] for a [float32]. *)
Definition Duration_of_float32 (f : float32) : Z :=
  match float32_trunc f with
  | Some z =>
      if bool_decide (min_int64 <= z <= max_int64) then z
      else wrap_int64 (unrepresentable f)
  | None => wrap_int64 (unrepresentable f)
  end.

(** [time.Duration(lineoutput.Elapsed * float32(time.Second))] *)
Definition elapsed_Duration (elapsed : float32) : Z :=
  Duration_of_float32 (float32_mul elapsed (float32_of_Z Second)).

(** The local variables of [Parse] that the loop changes, and the writes to
    [os.Stderr]. *)
Record state : Type := mkState {
  st_packages : list Package;   (* report.Packages *)
  st_tests : list Test;         (* tests *)
  st_stderr : list string       (* fragments written to os.Stderr, in order *)
}.

(** [benchmarks] and [coveragePct] are declared and never assigned. *)
Definition benchmarks : list Benchmark := [].
Definition coveragePct : string := "".

Definition new_Package (name : string) : Package :=
  mkPackage name 0 [] benchmarks coveragePct 0.

Definition new_Test (name package : string) : Test :=
  mkTest name package 0 FAIL [] "" 0.

(** [if p = findPackage(packages, name); p == nil { p = &Package{...};
    packages = append(packages, p) }]: the slice afterwards and where [p]
    points. *)
Definition find_or_new_Package (packages : list Package) (name : string)
  : list Package * nat :=
  match findPackage packages name with
  | Some i => (packages, i)
  | None => (packages ++ [new_Package name], length packages)
  end.

Definition find_or_new_Test (tests : list Test) (name package : string)
  : list Test * nat :=
  match findTest tests name with
  | Some i => (tests, i)
  | None => (tests ++ [new_Test name package], length tests)
  end.

(** The body of the [for] loop after a successful read. *)
Definition parse_line (l : line) (st : state) : state :=
  let lineoutput := fst (Unmarshal l LineOutput_zero) in
  let stderr := st_stderr st ++ [Output lineoutput] in
  if String.eqb (LineOutput_Test lineoutput) "" then
    let '(packages, p) := find_or_new_Package (st_packages st) (LineOutput_Package lineoutput) in
    let packages :=
      if String.eqb (Action lineoutput) "pass"
      then alter (Package_set_Duration (elapsed_Duration (Elapsed lineoutput))) p packages
      else packages in
    mkState packages (st_tests st) stderr
  else
    let '(tests, t) := find_or_new_Test (st_tests st) (LineOutput_Test lineoutput) (LineOutput_Package lineoutput) in
    let tests :=
      if String.eqb (Action lineoutput) "output"
      then alter (fun x => Test_set_Output (Test_Output x ++ [Output lineoutput]) x) t tests
      else tests in
    let tests :=
      if String.eqb (Action lineoutput) "pass" || String.eqb (Action lineoutput) "fail"
      then
        let tests :=
          if String.eqb (Action lineoutput) "pass"
          then alter (Test_set_Result PASS) t tests
          else tests in
        alter (Test_set_Duration (elapsed_Duration (Elapsed lineoutput))) t tests
      else tests in
    mkState (st_packages st) tests stderr.

(** The read loop: the state when it stops, and the error it returns with
    ([None] when it leaves by [break]). *)
Fixpoint read_loop (r : Reader) (st : state) : state * option error :=
  match r with
  | [] => (st, None)
  | inr err :: _ => if decide (err = io_EOF) then (st, None) else (st, Some err)
  | inl l :: r' => read_loop r' (parse_line l st)
  end.

(** One round of [for _, t := range tests]. *)
Definition attach_test (packages : list Package) (t : Test) : list Package :=
  let '(packages, p) := find_or_new_Package packages (Test_Package t) in
  alter (fun x => Package_set_Tests (Package_Tests x ++ [t]) x) p packages.

Definition assemble (st : state) : Report :=
  mkReport (fold_left attach_test (st_tests st) (st_packages st)).

Definition init_state : state := mkState [] [] [].

(** [Parse], with what it wrote to [os.Stderr]. The result pair is the
    report and the error that Go returns: [None] is [nil]. *)
Definition Parse_io (r : Reader) (pkgName : string)
  : (option Report * option error) * list string :=
  match read_loop r init_state with
  | (st, None) => ((Some (assemble st), None), st_stderr st)
  | (st, Some err) => ((None, Some err), st_stderr st)
  end.

Definition Parse (r : Reader) (pkgName : string) : option Report * option error :=
  fst (Parse_io r pkgName).

(** ** The run of the loop, event by event *)

(** The event a line is processed as. *)
Definition decode (l : line) : LineOutput := fst (Unmarshal l LineOutput_zero).

(** The lines the loop processes: those read before the first error. *)
Fixpoint lines_read (r : Reader) : list line :=
  match r with
  | inl l :: r' => l :: lines_read r'
  | _ => []
  end.

(** The error that ends the loop, [None] for end of stream. *)
Fixpoint stop_error (r : Reader) : option error :=
  match r with
  | [] => None
  | inr err :: _ => if decide (err = io_EOF) then None else Some err
  | inl _ :: r' => stop_error r'
  end.

Definition events (r : Reader) : list LineOutput := decode <$> lines_read r.

Definition run_lines (ls : list line) (st : state) : state :=
  fold_left (fun st l => parse_line l st) ls st.

(** What a package-scoped event does to the package it is about. *)
Definition on_Package (ev : LineOutput) (p : Package) : Package :=
  if String.eqb (Action ev) "pass"
  then Package_set_Duration (elapsed_Duration (Elapsed ev)) p
  else p.

(** What a test-scoped event does to the test it is about. *)
Definition on_Test (ev : LineOutput) (t : Test) : Test :=
  let t := if String.eqb (Action ev) "output"
           then Test_set_Output (Test_Output t ++ [Output ev]) t else t in
  if String.eqb (Action ev) "pass" || String.eqb (Action ev) "fail"
  then Test_set_Duration (elapsed_Duration (Elapsed ev))
         (if String.eqb (Action ev) "pass" then Test_set_Result PASS t else t)
  else t.

Definition add_Test (t : Test) (p : Package) : Package :=
  Package_set_Tests (Package_Tests p ++ [t]) p.

(** ** What the events say about a name *)

(** A package-scoped event for package [n]: its test name is empty. *)
Definition package_event (n : string) (ev : LineOutput) : Prop :=
  LineOutput_Test ev = "" /\ LineOutput_Package ev = n.

(** A test-scoped event for test [n] ([n] is not empty). *)
Definition test_event (n : string) (ev : LineOutput) : Prop :=
  LineOutput_Test ev = n.

Definition package_pass (n : string) (ev : LineOutput) : Prop :=
  package_event n ev /\ Action ev = "pass".

Definition test_pass (n : string) (ev : LineOutput) : Prop :=
  test_event n ev /\ Action ev = "pass".

Definition test_end (n : string) (ev : LineOutput) : Prop :=
  test_event n ev /\ (Action ev = "pass" \/ Action ev = "fail").

Definition test_output (n : string) (ev : LineOutput) : Prop :=
  test_event n ev /\ Action ev = "output".

Global Instance package_event_dec n ev : Decision (package_event n ev).
Proof. unfold package_event. apply _. Defined.
Global Instance test_event_dec n ev : Decision (test_event n ev).
Proof. unfold test_event. apply _. Defined.
Global Instance package_pass_dec n ev : Decision (package_pass n ev).
Proof. unfold package_pass. apply _. Defined.
Global Instance test_pass_dec n ev : Decision (test_pass n ev).
Proof. unfold test_pass. apply _. Defined.
Global Instance test_end_dec n ev : Decision (test_end n ev).
Proof. unfold test_end. apply _. Defined.
Global Instance test_output_dec n ev : Decision (test_output n ev).
Proof. unfold test_output. apply _. Defined.

(** The duration of the last event among [evs] that satisfies [P], zero when
    there is none. *)
Definition last_Duration (P : LineOutput -> Prop) `{!forall ev, Decision (P ev)}
    (evs : list LineOutput) : Z :=
  from_option (fun ev => elapsed_Duration (Elapsed ev)) 0 (last (filter P evs)).

(** The package as the events [evs] describe it, before any test is
    attached. *)
Definition package_of (evs : list LineOutput) (n : string) : Package :=
  mkPackage n (last_Duration (package_pass n) evs) [] benchmarks coveragePct 0.

Definition Result_of (evs : list LineOutput) (n : string) : Result :=
  if decide (Exists (test_pass n) evs) then PASS else FAIL.

Definition Output_of (evs : list LineOutput) (n : string) : list string :=
  Output <$> filter (test_output n) evs.

(** The package name of the first event for test [n]. *)
Definition Package_of (evs : list LineOutput) (n : string) : string :=
  from_option LineOutput_Package "" (head (filter (test_event n) evs)).

(** The test as the events [evs] describe it, recorded under package [pkg]. *)
Definition test_under (pkg : string) (evs : list LineOutput) (n : string) : Test :=
  mkTest n pkg (last_Duration (test_end n) evs) (Result_of evs n)
         (Output_of evs n) "" 0.

Definition test_of (evs : list LineOutput) (n : string) : Test :=
  test_under (Package_of evs n) evs n.

(** The discovered tests after the events [evs]. *)
Definition tests_inv (evs : list LineOutput) (ts : list Test) : Prop :=
  NoDup (Test_Name <$> ts) /\
  (forall n, n ∈ Test_Name <$> ts <-> n <> "" /\ Exists (test_event n) evs) /\
  Forall (fun t => t = test_of evs (Test_Name t)) ts.

(** The discovered packages after the events [evs]. *)
Definition packages_inv (evs : list LineOutput) (ps : list Package) : Prop :=
  NoDup (Package_Name <$> ps) /\
  (forall n, n ∈ Package_Name <$> ps <-> Exists (package_event n) evs) /\
  Forall (fun p => p = package_of evs (Package_Name p)) ps.

(** All tests of a report, package by package. *)
Definition Report_tests (rep : Report) : list Test :=
  concat (Package_Tests <$> Packages rep).

(** Go's [int(d / time.Millisecond)]: integer division truncates. *)
Definition milliseconds (d : Z) : Z := Z.quot d Millisecond.

(** The legacy [Time] fields mirror the durations. *)
Definition Time_in_sync (rep : Report) : Prop :=
  Forall (fun p => Package_Time p = milliseconds (Package_Duration p) /\
                   Forall (fun t => Test_Time t = milliseconds (Test_Duration t))
                          (Package_Tests p))
         (Packages rep).


(** The packages [ps] after the tests [ts] have been attached to the
    packages [ps0] of the loop: each package owns the tests recorded under
    its name, in discovery order, and otherwise is a package of the loop or
    a fresh one for a name the loop has not seen. *)
Definition attached (ps0 : list Package) (ts : list Test) (ps : list Package) : Prop :=
  NoDup (Package_Name <$> ps) /\
  (forall n, n ∈ Package_Name <$> ps <->
             n ∈ Package_Name <$> ps0 \/ n ∈ Test_Package <$> ts) /\
  Forall (fun p =>
            Package_Tests p = filter (fun t => Test_Package t = Package_Name p) ts /\
            (Package_set_Tests [] p ∈ ps0 \/
             (Package_Name p ∉ Package_Name <$> ps0) /\
             Package_set_Tests [] p = new_Package (Package_Name p))) ps /\
  concat (Package_Tests <$> ps) ≡ₚ ts.

(** ** The report as the events describe it *)

(** The names of a list in the order of their first occurrence. *)
Definition first_seen (names : list string) : list string :=
  reverse (remove_dups (reverse names)).

(** One more name seen: appended unless it is known. *)
Definition see (seen : list string) (n : string) : list string :=
  if decide (n ∈ seen) then seen else seen ++ [n].

(** The test names of the test-scoped events, and the package names of the
    package-scoped ones, in stream order. *)
Definition test_names (evs : list LineOutput) : list string :=
  LineOutput_Test <$> filter (fun ev => LineOutput_Test ev <> "") evs.

Definition package_names (evs : list LineOutput) : list string :=
  LineOutput_Package <$> filter (fun ev => LineOutput_Test ev = "") evs.

(** The tests the events describe, in the order the events discover them. *)
Definition tests_of (evs : list LineOutput) : list Test :=
  test_of evs <$> first_seen (test_names evs).

(** The packages of the report: those the package-scoped events name, then
    those only the discovered tests name. *)
Definition report_package_names (evs : list LineOutput) : list string :=
  first_seen (package_names evs ++ (Test_Package <$> tests_of evs)).

(** A package of the report: its duration from its own "pass" events, its
    tests those recorded under its name. *)
Definition package_view (evs : list LineOutput) (n : string) : Package :=
  mkPackage n (last_Duration (package_pass n) evs)
            (filter (fun t => Test_Package t = n) (tests_of evs))
            benchmarks coveragePct 0.

Definition report_of (evs : list LineOutput) : Report :=
  mkReport (package_view evs <$> report_package_names evs).

(** The failed tests of a report. *)
Definition failed_tests (rep : Report) : list Test :=
  filter (fun t => Test_Result t = FAIL) (Report_tests rep).

(** A line whose event is test-scoped. *)
Definition test_scoped_line (l : line) : Prop := LineOutput_Test (decode l) <> "".

Global Instance test_scoped_line_dec l : Decision (test_scoped_line l).
Proof. unfold test_scoped_line. apply _. Defined.

(** ** Facts about the reverse lookup *)

Section Keyed.
Context {A : Type} (key : A -> string).

Lemma rfind_from_Some l name n i :
  rfind_from key l name n = Some i ->
  (i < n)%nat /\
  exists x, l !! i = Some x /\ key x = name /\
    forall j y, (i < j < n)%nat -> l !! j = Some y -> key y <> name.
Proof.
  induction n as [|n IH]; simpl; [discriminate|].
  destruct (l !! n) as [x|] eqn:Hn; [|discriminate].
  destruct (String.eqb_spec (key x) name) as [Heq|Hne].
  - intros [= <-]. split; [lia|]. exists x. repeat split; auto.
    intros j y Hj. lia.
  - intros Hf. destruct (IH Hf) as (Hlt & y & Hy & Hk & Hlast).
    split; [lia|]. exists y. repeat split; auto.
    intros j z Hj Hz. destruct (decide (j = n)) as [->|Hjn].
    + congruence.
    + apply (Hlast j); [lia|done].
Qed.

Lemma rfind_from_None l name n :
  (n <= length l)%nat -> rfind_from key l name n = None ->
  forall j y, (j < n)%nat -> l !! j = Some y -> key y <> name.
Proof.
  induction n as [|n IH]; simpl; intros Hn Hf j y Hj Hy; [lia|].
  destruct (l !! n) as [x|] eqn:Hx.
  - destruct (String.eqb_spec (key x) name) as [Heq|Hne]; [discriminate|].
    destruct (decide (j = n)) as [->|Hjn]; [congruence|].
    apply (IH ltac:(lia) Hf j); [lia|done].
  - apply lookup_ge_None in Hx. lia.
Qed.

(** The most recent match wins. *)
Lemma rfind_Some l name i :
  rfind key l name = Some i ->
  exists x, l !! i = Some x /\ key x = name /\
    forall j y, (i < j)%nat -> l !! j = Some y -> key y <> name.
Proof.
  intros Hf.
  destruct (rfind_from_Some _ _ _ _ Hf) as (_ & x & Hx & Hk & Hlast).
  exists x. repeat split; auto. intros j y Hj Hy.
  apply (Hlast j); [|done]. split; [done|]. by eapply lookup_lt_Some.
Qed.

Lemma rfind_None l name :
  rfind key l name = None -> name ∉ key <$> l.
Proof.
  intros Hf [y [-> Hy]]%list_elem_of_fmap.
  apply list_elem_of_lookup in Hy as [j Hj].
  eapply (rfind_from_None l (key y) (length l)); eauto.
  by eapply lookup_lt_Some.
Qed.

Section Upsert.
Variables (name : string) (fresh : A) (f : A -> A).
Hypothesis key_fresh : key fresh = name.
Hypothesis key_f : forall x, key (f x) = key x.

Lemma upsert_keys l :
  key <$> upsert key l name fresh f =
  if decide (name ∈ key <$> l) then key <$> l else (key <$> l) ++ [name].
Proof.
  unfold upsert. destruct (rfind key l name) as [i|] eqn:Hf.
  - destruct (rfind_Some _ _ _ Hf) as (x & Hx & Hk & _).
    rewrite decide_True.
    + rewrite (list_fmap_alter key f id).
      * by rewrite list_alter_id.
      * apply Forall_forall. intros; apply key_f.
    + apply list_elem_of_fmap. exists x. split; [done|].
      by eapply list_elem_of_lookup_2.
  - apply rfind_None in Hf. rewrite decide_False by done.
    rewrite fmap_app; simpl. by rewrite key_f, key_fresh.
Qed.

Lemma upsert_NoDup l :
  NoDup (key <$> l) -> NoDup (key <$> upsert key l name fresh f).
Proof.
  intros Hnd. rewrite upsert_keys. case_decide; [done|].
  apply NoDup_app. repeat split; [done| |apply NoDup_singleton].
  intros x Hx ->%list_elem_of_singleton. done.
Qed.

Lemma elem_of_upsert_keys l n :
  n ∈ key <$> upsert key l name fresh f <-> n ∈ key <$> l \/ n = name.
Proof.
  rewrite upsert_keys. case_decide.
  - split; [by left|]. intros [?| ->]; done.
  - rewrite elem_of_app, list_elem_of_singleton. done.
Qed.

(** Where an entry of the updated list comes from. *)
Lemma elem_of_upsert l y :
  NoDup (key <$> l) ->
  y ∈ upsert key l name fresh f ->
  (y ∈ l /\ key y <> name) \/
  (exists x, x ∈ l /\ key x = name /\ y = f x) \/
  ((name ∉ key <$> l) /\ y = f fresh).
Proof.
  intros Hnd. unfold upsert. destruct (rfind key l name) as [i|] eqn:Hf.
  - destruct (rfind_Some _ _ _ Hf) as (x & Hx & Hk & _).
    intros [j Hj]%list_elem_of_lookup.
    destruct (decide (i = j)) as [<-|Hij].
    + rewrite list_lookup_alter_eq, Hx in Hj. simpl in Hj. injection Hj as <-.
      right; left. exists x. split; [by eapply list_elem_of_lookup_2|done].
    + rewrite list_lookup_alter_ne in Hj by done.
      left. split; [by eapply list_elem_of_lookup_2|].
      intros Hky. apply Hij.
      eapply (NoDup_lookup (key <$> l)); [done| |].
      * by rewrite list_lookup_fmap, Hx.
      * rewrite list_lookup_fmap, Hj. simpl. by rewrite Hky, Hk.
  - apply rfind_None in Hf.
    intros [Hy|Hy%list_elem_of_singleton]%elem_of_app.
    + left. split; [done|]. intros <-. apply Hf.
      apply list_elem_of_fmap. eauto.
    + right; right. done.
Qed.

(** A property of the entries that the update carries over. *)
Lemma Forall_upsert (P Q : A -> Prop) l :
  NoDup (key <$> l) ->
  Forall P l ->
  (forall x, P x -> key x <> name -> Q x) ->
  (forall x, P x -> key x = name -> Q (f x)) ->
  (name ∉ key <$> l -> Q (f fresh)) ->
  Forall Q (upsert key l name fresh f).
Proof.
  intros Hnd HP Hother Hupd Hnew. apply Forall_forall. intros y Hy.
  rewrite Forall_forall in HP.
  apply elem_of_upsert in Hy as [[Hy Hk]|[(x & Hx & Hk & ->)|[Hn ->]]]; auto.
Qed.

End Upsert.
End Keyed.

(** ** The loop body as find-or-append-then-update *)

Lemma findTest_rfind tests name : findTest tests name = rfind Test_Name tests name.
Proof. reflexivity. Qed.

Lemma findPackage_rfind packages name :
  findPackage packages name = rfind Package_Name packages name.
Proof. reflexivity. Qed.

Lemma alter_fresh {A} (f : A -> A) (l : list A) (x : A) :
  alter f (length l) (l ++ [x]) = l ++ [f x].
Proof.
  rewrite alter_app_r_alt by lia. by rewrite Nat.sub_diag.
Qed.

Lemma parse_line_packages l st :
  LineOutput_Test (decode l) = "" ->
  parse_line l st =
  mkState (upsert Package_Name (st_packages st) (LineOutput_Package (decode l))
             (new_Package (LineOutput_Package (decode l))) (on_Package (decode l)))
          (st_tests st) (st_stderr st ++ [Output (decode l)]).
Proof.
  intros Hscope. unfold parse_line. fold (decode l). rewrite Hscope. simpl.
  unfold find_or_new_Package, upsert, on_Package.
  rewrite findPackage_rfind.
  destruct (rfind Package_Name (st_packages st) _) as [i|];
    destruct (String.eqb (Action (decode l)) "pass"); f_equal.
  - by rewrite list_alter_id.
  - apply alter_fresh.
Qed.

Lemma parse_line_tests l st :
  LineOutput_Test (decode l) <> "" ->
  parse_line l st =
  mkState (st_packages st)
          (upsert Test_Name (st_tests st) (LineOutput_Test (decode l))
             (new_Test (LineOutput_Test (decode l)) (LineOutput_Package (decode l)))
             (on_Test (decode l)))
          (st_stderr st ++ [Output (decode l)]).
Proof.
  intros Hscope. unfold parse_line. fold (decode l).
  destruct (String.eqb_spec (LineOutput_Test (decode l)) "") as [|_]; [done|].
  unfold find_or_new_Test, upsert, on_Test.
  rewrite findTest_rfind.
  destruct (rfind Test_Name (st_tests st) _) as [i|];
    destruct (String.eqb (Action (decode l)) "output") eqn:Ho;
    destruct (String.eqb (Action (decode l)) "pass") eqn:Hp;
    destruct (String.eqb (Action (decode l)) "fail") eqn:Hf;
    simpl; f_equal;
    rewrite ?alter_fresh, ?list_alter_alter_eq; try reflexivity;
    by rewrite list_alter_id.
Qed.

Lemma attach_test_upsert packages t :
  attach_test packages t =
  upsert Package_Name packages (Test_Package t) (new_Package (Test_Package t))
    (add_Test t).
Proof.
  unfold attach_test, find_or_new_Package, upsert. rewrite findPackage_rfind.
  destruct (rfind Package_Name packages _) as [i|]; [done|apply alter_fresh].
Qed.

(** ** The read loop as a fold over the lines read *)

Lemma read_loop_run r st :
  read_loop r st = (run_lines (lines_read r) st, stop_error r).
Proof.
  revert st. induction r as [|[l|err] r IH]; intros st; simpl.
  - done.
  - apply IH.
  - by destruct (decide (err = io_EOF)).
Qed.

Lemma Parse_unfold r pkgName :
  Parse r pkgName =
  match stop_error r with
  | None => (Some (assemble (run_lines (lines_read r) init_state)), None)
  | Some err => (None, Some err)
  end.
Proof.
  unfold Parse, Parse_io. rewrite read_loop_run.
  by destruct (stop_error r).
Qed.

Lemma run_lines_snoc ls l st :
  run_lines (ls ++ [l]) st = parse_line l (run_lines ls st).
Proof. unfold run_lines. by rewrite fold_left_app. Qed.

Lemma lines_read_inl ls : lines_read (inl <$> ls) = ls.
Proof. induction ls as [|l ls IH]; csimpl; [done|by rewrite IH]. Qed.

Lemma stop_error_inl ls : stop_error (inl <$> ls) = None.
Proof. induction ls as [|l ls IH]; csimpl; done. Qed.

Lemma lines_read_app_inr ls err rest :
  lines_read ((inl <$> ls) ++ inr err :: rest) = ls.
Proof. induction ls as [|l ls IH]; csimpl; [done|by rewrite IH]. Qed.

Lemma stop_error_app_inr ls err rest :
  stop_error ((inl <$> ls) ++ inr err :: rest) =
  if decide (err = io_EOF) then None else Some err.
Proof. induction ls as [|l ls IH]; csimpl; done. Qed.

(** ** The descriptions of a name, one event later *)

Lemma filter_snoc {A} (P : A -> Prop) `{!forall x, Decision (P x)} (l : list A) x :
  filter P (l ++ [x]) = filter P l ++ (if decide (P x) then [x] else []).
Proof. rewrite filter_app. f_equal. Qed.

Lemma filter_none {A} (P : A -> Prop) `{!forall x, Decision (P x)} (l : list A) :
  ~ Exists P l -> filter P l = [].
Proof.
  intros Hno. induction l as [|x l IH]; [done|].
  rewrite filter_cons. destruct (decide (P x)) as [HP|HP].
  - exfalso. apply Hno. by left.
  - apply IH. intros Hex. apply Hno. by right.
Qed.

Section Snoc.
Context (P : LineOutput -> Prop) `{!forall ev, Decision (P ev)}.

Lemma last_Duration_snoc evs ev :
  last_Duration P (evs ++ [ev]) =
  if decide (P ev) then elapsed_Duration (Elapsed ev) else last_Duration P evs.
Proof.
  unfold last_Duration. rewrite filter_snoc.
  destruct (decide (P ev)).
  - by rewrite last_snoc.
  - by rewrite app_nil_r.
Qed.

Lemma last_Duration_none evs :
  ~ Exists P evs -> last_Duration P evs = 0.
Proof. intros Hno. unfold last_Duration. by rewrite filter_none. Qed.

(** The duration is the one of the last matching event. *)
Lemma last_Duration_last evs1 ev evs2 :
  P ev -> Forall (fun ev' => ~ P ev') evs2 ->
  last_Duration P (evs1 ++ ev :: evs2) = elapsed_Duration (Elapsed ev).
Proof.
  intros HP Hno. unfold last_Duration.
  rewrite filter_app, filter_cons_True by done.
  rewrite (filter_none P evs2).
  - by rewrite last_snoc.
  - rewrite Exists_exists. intros (ev' & Hin & HP').
    rewrite Forall_forall in Hno. by apply (Hno ev').
Qed.

End Snoc.

Lemma Result_of_snoc evs ev n :
  Result_of (evs ++ [ev]) n =
  if decide (test_pass n ev) then PASS else Result_of evs n.
Proof.
  unfold Result_of.
  destruct (decide (test_pass n ev)) as [Hp|Hp].
  - rewrite decide_True; [done|]. apply Exists_app. right. by left.
  - destruct (decide (Exists (test_pass n) evs)) as [Hex|Hex].
    + rewrite decide_True; [done|]. apply Exists_app. by left.
    + rewrite decide_False; [done|].
      rewrite Exists_app, Exists_cons, Exists_nil. tauto.
Qed.

Lemma Output_of_snoc evs ev n :
  Output_of (evs ++ [ev]) n =
  Output_of evs n ++ (if decide (test_output n ev) then [Output ev] else []).
Proof.
  unfold Output_of. rewrite filter_snoc, fmap_app.
  by destruct (decide (test_output n ev)).
Qed.

Lemma Package_of_known evs ev n :
  Exists (test_event n) evs -> Package_of (evs ++ [ev]) n = Package_of evs n.
Proof.
  intros Hex. unfold Package_of. rewrite filter_snoc.
  destruct (filter (test_event n) evs) as [|ev' evs'] eqn:Hf; [|done].
  exfalso. apply Exists_exists in Hex as (ev' & Hin & Hev).
  by apply (filter_nil_not_elem_of _ _ ev' Hf).
Qed.

Lemma Package_of_first evs ev n :
  ~ Exists (test_event n) evs -> test_event n ev ->
  Package_of (evs ++ [ev]) n = LineOutput_Package ev.
Proof.
  intros Hno Hev. unfold Package_of.
  by rewrite filter_snoc, filter_none, decide_True.
Qed.

Lemma Package_of_other evs ev n :
  ~ test_event n ev -> Package_of (evs ++ [ev]) n = Package_of evs n.
Proof.
  intros Hev. unfold Package_of.
  by rewrite filter_snoc, decide_False, app_nil_r.
Qed.

(** An event for test [n] updates the entry as the description says. *)
Lemma on_Test_under pkg evs ev n :
  test_event n ev ->
  on_Test ev (test_under pkg evs n) = test_under pkg (evs ++ [ev]) n.
Proof.
  intros Hev. unfold on_Test, test_under.
  rewrite last_Duration_snoc, Result_of_snoc, Output_of_snoc.
  unfold test_end, test_pass, test_output.
  destruct (String.eqb_spec (Action ev) "output") as [Ho|Ho];
    destruct (String.eqb_spec (Action ev) "pass") as [Hp|Hp];
    destruct (String.eqb_spec (Action ev) "fail") as [Hf|Hf];
    try congruence; simpl;
    repeat case_decide; try tauto;
    unfold Test_set_Duration, Test_set_Result, Test_set_Output; simpl;
    rewrite ?app_nil_r; reflexivity.
Qed.

Lemma test_under_other pkg evs ev n :
  ~ test_event n ev -> test_under pkg (evs ++ [ev]) n = test_under pkg evs n.
Proof.
  intros Hev. unfold test_under.
  rewrite last_Duration_snoc, Result_of_snoc, Output_of_snoc.
  unfold test_end, test_pass, test_output.
  repeat case_decide; try tauto. by rewrite app_nil_r.
Qed.

Lemma test_under_fresh pkg evs n :
  ~ Exists (test_event n) evs -> test_under pkg evs n = new_Test n pkg.
Proof.
  intros Hno. unfold test_under, new_Test, Result_of, Output_of.
  rewrite last_Duration_none, decide_False, filter_none; [done| | |];
    intros Hex; apply Hno; eapply Exists_impl; [exact Hex| |exact Hex| |exact Hex|];
    unfold test_output, test_pass, test_end; tauto.
Qed.

Lemma on_Package_of evs ev n :
  package_event n ev ->
  on_Package ev (package_of evs n) = package_of (evs ++ [ev]) n.
Proof.
  intros Hev. unfold on_Package, package_of.
  rewrite last_Duration_snoc. unfold package_pass.
  destruct (String.eqb_spec (Action ev) "pass") as [Hp|Hp];
    case_decide; try tauto; reflexivity.
Qed.

Lemma package_of_other evs ev n :
  ~ package_event n ev -> package_of (evs ++ [ev]) n = package_of evs n.
Proof.
  intros Hev. unfold package_of. rewrite last_Duration_snoc.
  unfold package_pass. case_decide; [tauto|done].
Qed.

Lemma package_of_fresh evs n :
  ~ Exists (package_event n) evs -> package_of evs n = new_Package n.
Proof.
  intros Hno. unfold package_of, new_Package.
  rewrite last_Duration_none; [done|].
  intros Hex. apply Hno. eapply Exists_impl; [exact Hex|].
  unfold package_pass. tauto.
Qed.

(** ** The loop invariant *)

Lemma on_Test_Name ev t : Test_Name (on_Test ev t) = Test_Name t.
Proof.
  unfold on_Test.
  destruct (String.eqb (Action ev) "output"), (String.eqb (Action ev) "pass"),
    (String.eqb (Action ev) "fail"); reflexivity.
Qed.

Lemma on_Package_Name ev p : Package_Name (on_Package ev p) = Package_Name p.
Proof. unfold on_Package. by destruct (String.eqb (Action ev) "pass"). Qed.

Lemma Exists_snoc {A} (P : A -> Prop) (l : list A) (x : A) :
  Exists P (l ++ [x]) <-> Exists P l \/ P x.
Proof. rewrite Exists_app, Exists_cons, Exists_nil. tauto. Qed.

(** A test-scoped event: the entry of its test is found or appended, then
    updated; the other entries stay as they are. *)
Lemma tests_inv_test_event evs ts ev :
  LineOutput_Test ev <> "" ->
  tests_inv evs ts ->
  tests_inv (evs ++ [ev])
    (upsert Test_Name ts (LineOutput_Test ev)
       (new_Test (LineOutput_Test ev) (LineOutput_Package ev)) (on_Test ev)).
Proof.
  intros Hscope (Hnd & Hnames & Hall).
  assert (Hf : forall x, Test_Name (on_Test ev x) = Test_Name x)
    by apply on_Test_Name.
  assert (Hfresh : Test_Name (new_Test (LineOutput_Test ev) (LineOutput_Package ev))
                   = LineOutput_Test ev) by done.
  split; [|split].
  - by apply upsert_NoDup.
  - intros n. rewrite elem_of_upsert_keys by done.
    rewrite Hnames, Exists_snoc. unfold test_event at 2.
    split.
    + intros [[Hn Hex]| ->]; auto.
    + intros [Hn [Hex|Hev]]; auto.
  - eapply Forall_upsert with
      (P := fun t => Exists (test_event (Test_Name t)) evs /\
                     t = test_of evs (Test_Name t)); [done|done| | | |].
    + apply Forall_forall. intros t Ht. split.
      * apply Hnames. by apply list_elem_of_fmap_2.
      * rewrite Forall_forall in Hall. by apply Hall.
    + intros t [Hex Ht] Hne. etrans; [exact Ht|]. unfold test_of.
      rewrite Package_of_known by done.
      rewrite test_under_other; [done|]. unfold test_event. congruence.
    + intros t [Hex Ht] Heq. rewrite Hf. rewrite Heq in *. rewrite Ht.
      unfold test_of. rewrite Package_of_known by done.
      by apply on_Test_under.
    + intros Hnew. rewrite Hf, Hfresh.
      assert (Hno : ~ Exists (test_event (LineOutput_Test ev)) evs).
      { intros Hex. apply Hnew, Hnames. done. }
      unfold test_of. rewrite Package_of_first by done.
      rewrite <- (test_under_fresh _ evs) by done.
      by apply on_Test_under.
Qed.

(** A package-scoped event leaves the discovered tests alone. *)
Lemma tests_inv_package_event evs ts ev :
  LineOutput_Test ev = "" ->
  tests_inv evs ts -> tests_inv (evs ++ [ev]) ts.
Proof.
  intros Hscope (Hnd & Hnames & Hall).
  assert (Hnot : forall n, n <> "" -> ~ test_event n ev).
  { intros n Hn. unfold test_event. congruence. }
  split; [done|split].
  - intros n. rewrite Hnames, Exists_snoc. specialize (Hnot n). tauto.
  - apply Forall_forall. intros t Ht. rewrite Forall_forall in Hall.
    assert (Hn : Test_Name t <> "").
    { apply (Hnames (Test_Name t)). by apply list_elem_of_fmap_2. }
    etrans; [by apply Hall|]. unfold test_of.
    rewrite Package_of_other, test_under_other; auto.
Qed.

Lemma packages_inv_package_event evs ps ev :
  LineOutput_Test ev = "" ->
  packages_inv evs ps ->
  packages_inv (evs ++ [ev])
    (upsert Package_Name ps (LineOutput_Package ev)
       (new_Package (LineOutput_Package ev)) (on_Package ev)).
Proof.
  intros Hscope (Hnd & Hnames & Hall).
  assert (Hf : forall x, Package_Name (on_Package ev x) = Package_Name x)
    by apply on_Package_Name.
  assert (Hfresh : Package_Name (new_Package (LineOutput_Package ev))
                   = LineOutput_Package ev) by done.
  split; [|split].
  - by apply upsert_NoDup.
  - intros n. rewrite elem_of_upsert_keys by done.
    rewrite Hnames, Exists_snoc. split.
    + intros [Hex| ->]; [by left|by right].
    + intros [Hex|[_ Hev]]; [by left|by right].
  - eapply Forall_upsert with
      (P := fun p => p = package_of evs (Package_Name p)); [done|done|done| | |].
    + intros p Hp Hne. etrans; [exact Hp|].
      rewrite package_of_other; [done|]. unfold package_event. intros [_ Heq].
      congruence.
    + intros p Hp Heq. rewrite Hf. rewrite Heq in *. rewrite Hp.
      by apply on_Package_of.
    + intros Hnew. rewrite Hf, Hfresh.
      rewrite <- (package_of_fresh evs).
      * by apply on_Package_of.
      * intros Hex. by apply Hnew, Hnames.
Qed.

(** A test-scoped event leaves the discovered packages alone. *)
Lemma packages_inv_test_event evs ps ev :
  LineOutput_Test ev <> "" ->
  packages_inv evs ps -> packages_inv (evs ++ [ev]) ps.
Proof.
  intros Hscope (Hnd & Hnames & Hall).
  assert (Hnot : forall n, ~ package_event n ev).
  { intros n [Hn _]. done. }
  split; [done|split].
  - intros n. rewrite Hnames, Exists_snoc. specialize (Hnot n). tauto.
  - apply Forall_forall. intros p Hp. rewrite Forall_forall in Hall.
    etrans; [by apply Hall|]. by rewrite package_of_other.
Qed.

Lemma parse_line_inv evs l st :
  tests_inv evs (st_tests st) -> packages_inv evs (st_packages st) ->
  tests_inv (evs ++ [decode l]) (st_tests (parse_line l st)) /\
  packages_inv (evs ++ [decode l]) (st_packages (parse_line l st)).
Proof.
  intros Ht Hp.
  destruct (decide (LineOutput_Test (decode l) = "")) as [Hscope|Hscope].
  - rewrite parse_line_packages by done. simpl. split.
    + by apply tests_inv_package_event.
    + by apply packages_inv_package_event.
  - rewrite parse_line_tests by done. simpl. split.
    + by apply tests_inv_test_event.
    + by apply packages_inv_test_event.
Qed.

(** The invariant holds when the loop ends: every discovered test and
    package is the one its events describe, and no name is discovered
    twice. *)
Lemma run_lines_inv ls :
  tests_inv (decode <$> ls) (st_tests (run_lines ls init_state)) /\
  packages_inv (decode <$> ls) (st_packages (run_lines ls init_state)).
Proof.
  induction ls as [|l ls IH] using rev_ind.
  - simpl. split; (split; [apply NoDup_nil_2|split; [|apply Forall_nil_2]]).
    + intros n. rewrite Exists_nil, elem_of_nil. tauto.
    + intros n. rewrite Exists_nil, elem_of_nil. tauto.
  - rewrite run_lines_snoc, fmap_app. destruct IH as [Ht Hp].
    by apply parse_line_inv.
Qed.

(** No package owns a test while the loop runs. *)
Lemma run_lines_no_Tests ls :
  Forall (fun p => Package_Tests p = []) (st_packages (run_lines ls init_state)).
Proof.
  destruct (run_lines_inv ls) as [_ (_ & _ & Hall)].
  eapply Forall_impl; [exact Hall|]. intros p ->. done.
Qed.

(** ** Report assembly *)

Lemma concat_fmap_alter {A B} (g : A -> list B) (f : A -> A) (l : list A) i x extra :
  l !! i = Some x -> g (f x) = g x ++ extra ->
  concat (g <$> alter f i l) ≡ₚ concat (g <$> l) ++ extra.
Proof.
  intros Hx Hg. revert i Hx.
  induction l as [|y l IH]; intros [|i] Hx; simplify_eq/=.
  - rewrite Hg. by rewrite <- !(assoc_L (++)), (comm (++) extra).
  - rewrite (IH i) by done. by rewrite (assoc_L (++)).
Qed.

Lemma concat_Tests_attach ps t :
  concat (Package_Tests <$> attach_test ps t) ≡ₚ concat (Package_Tests <$> ps) ++ [t].
Proof.
  rewrite attach_test_upsert. unfold upsert.
  destruct (rfind Package_Name ps (Test_Package t)) as [i|] eqn:Hfind.
  - destruct (rfind_Some _ _ _ _ Hfind) as (x & Hx & _).
    by apply (concat_fmap_alter _ _ _ _ x).
  - rewrite fmap_app, concat_app. simpl. done.
Qed.

Lemma attached_nil ps0 :
  NoDup (Package_Name <$> ps0) ->
  Forall (fun p => Package_Tests p = []) ps0 ->
  attached ps0 [] ps0.
Proof.
  intros Hnd Hempty. split; [done|split; [|split]].
  - intros n. rewrite fmap_nil, elem_of_nil. tauto.
  - apply Forall_forall. intros p Hp. rewrite Forall_forall in Hempty.
    split; [by rewrite filter_nil; apply Hempty|].
    left. specialize (Hempty p Hp). destruct p; simpl in *. by subst.
  - induction Hempty as [|p ps Hp _ IH]; csimpl; [done|].
    rewrite Hp. simpl. apply IH. by apply NoDup_cons in Hnd as [_ ?].
Qed.

Lemma attached_snoc ps0 ts ps t :
  attached ps0 ts ps -> attached ps0 (ts ++ [t]) (attach_test ps t).
Proof.
  intros (Hnd & Hnames & Hall & Hperm).
  assert (Hperm' := concat_Tests_attach ps t).
  rewrite attach_test_upsert in *.
  assert (Hfresh : Package_Name (new_Package (Test_Package t)) = Test_Package t)
    by done.
  split; [|split; [|split]].
  - by apply upsert_NoDup.
  - intros n. rewrite elem_of_upsert_keys by done.
    rewrite Hnames, fmap_app, elem_of_app.
    change (Test_Package <$> [t]) with [Test_Package t].
    rewrite list_elem_of_singleton. tauto.
  - eapply Forall_upsert; [done|done|exact Hall| | |]; simpl.
    + intros p [Htests Horigin] Hne. split; [|done].
      rewrite filter_app, filter_singleton_False, app_nil_r; [done| |congruence].
      exact [].
    + intros p [Htests Horigin] Heq. split; [|done].
      rewrite filter_app, filter_singleton_True, Htests; [done| |congruence].
      exact [].
    + intros Hnew. split.
      * rewrite filter_app, filter_singleton_True; [|exact []|done].
        rewrite filter_none; [done|].
        rewrite Exists_exists. intros (t' & Ht' & Heq). apply Hnew, Hnames.
        right. rewrite <- Heq. by apply list_elem_of_fmap_2.
      * right. split; [|done]. intros Hin. apply Hnew, Hnames. by left.
  - by rewrite Hperm', Hperm.
Qed.

Lemma fold_attached ps0 ts :
  NoDup (Package_Name <$> ps0) ->
  Forall (fun p => Package_Tests p = []) ps0 ->
  attached ps0 ts (fold_left attach_test ts ps0).
Proof.
  intros Hnd Hempty. induction ts as [|t ts IH] using rev_ind.
  - by apply attached_nil.
  - rewrite fold_left_app. simpl. by apply attached_snoc.
Qed.

(** ** The report as a function of the events *)

(** A report comes from the discovered tests and packages of the loop. *)
Lemma Parse_report r pkgName rep :
  Parse r pkgName = (Some rep, None) ->
  exists ts ps0,
    tests_inv (events r) ts /\ packages_inv (events r) ps0 /\
    attached ps0 ts (Packages rep).
Proof.
  rewrite Parse_unfold. destruct (stop_error r); [discriminate|].
  intros [= <-].
  destruct (run_lines_inv (lines_read r)) as [Ht Hp].
  eexists _, _. split; [exact Ht|split; [exact Hp|]].
  apply fold_attached.
  - by destruct Hp.
  - apply run_lines_no_Tests.
Qed.


Lemma Report_tests_perm ps0 ts rep :
  attached ps0 ts (Packages rep) -> Report_tests rep ≡ₚ ts.
Proof. by intros (_ & _ & _ & Hperm). Qed.

Lemma elem_of_concat {A} (x : A) (ls : list (list A)) :
  x ∈ concat ls <-> exists l, x ∈ l /\ l ∈ ls.
Proof.
  induction ls as [|l ls IH]; simpl.
  - rewrite elem_of_nil. split; [done|]. intros (l & _ & Hl).
    by apply elem_of_nil in Hl.
  - rewrite elem_of_app, IH. split.
    + intros [Hx|(l' & Hx & Hl')]; [exists l|exists l'];
        rewrite elem_of_cons; auto.
    + intros (l' & Hx & [->|Hl']%elem_of_cons); [by left|right; eauto].
Qed.

Lemma elem_of_Report_tests rep p t :
  p ∈ Packages rep -> t ∈ Package_Tests p -> t ∈ Report_tests rep.
Proof.
  intros Hp Ht. apply elem_of_concat. exists (Package_Tests p).
  split; [done|]. by apply list_elem_of_fmap_2.
Qed.

Lemma filter_key_unique {A} (key : A -> string) (l : list A) n :
  NoDup (key <$> l) -> n ∈ key <$> l ->
  length (filter (fun x => key x = n) l) = 1%nat.
Proof.
  induction l as [|x l IH]; csimpl; intros Hnd Hin.
  - by apply elem_of_nil in Hin.
  - apply NoDup_cons in Hnd as [Hx Hnd]. rewrite filter_cons.
    destruct (decide (key x = n)) as [<-|Hne].
    + simpl. f_equal. rewrite filter_none; [done|].
      rewrite Exists_exists. intros (y & Hy & Heq). apply Hx.
      rewrite <- Heq. by apply list_elem_of_fmap_2.
    + apply IH; [done|]. apply elem_of_cons in Hin as [Heq|Hin]; [|done].
      by destruct Hne.
Qed.

(** The duration of a reported package is the one of the last
    package-scoped "pass" event for its name. *)
Lemma Package_Duration_last r pkgName rep p :
  Parse r pkgName = (Some rep, None) -> p ∈ Packages rep ->
  Package_Duration p = last_Duration (package_pass (Package_Name p)) (events r) /\
  Package_Time p = 0.
Proof.
  intros (ts & ps0 & _ & (_ & Hnames & Hall) & (_ & _ & Hps & _))%Parse_report Hp.
  rewrite Forall_forall in Hps. destruct (Hps p Hp) as [_ [Hold|[Hnew Heq]]].
  - rewrite Forall_forall in Hall. apply Hall in Hold. simpl in Hold.
    apply (f_equal Package_Duration) in Hold as Hd.
    apply (f_equal Package_Time) in Hold as Htime. done.
  - apply (f_equal Package_Duration) in Heq as Hd.
    apply (f_equal Package_Time) in Heq as Htime. simpl in *.
    split; [|done]. rewrite Hd, last_Duration_none; [done|].
    intros Hex. apply Hnew, Hnames. eapply Exists_impl; [exact Hex|].
    by intros ev [Hev _].
Qed.

(** A reported test is the one its events describe. *)
Lemma Report_test_of r pkgName rep t :
  Parse r pkgName = (Some rep, None) -> t ∈ Report_tests rep ->
  Test_Name t <> "" /\ Exists (test_event (Test_Name t)) (events r) /\
  t = test_of (events r) (Test_Name t).
Proof.
  intros (ts & ps0 & (_ & Hnames & Hall) & _ & Hatt)%Parse_report Ht.
  rewrite (Report_tests_perm _ _ _ Hatt) in Ht.
  rewrite Forall_forall in Hall.
  destruct (proj1 (Hnames (Test_Name t))) as [Hn Hex].
  { by apply list_elem_of_fmap_2. }
  auto.
Qed.

(** A reported test sits in the package that carries the package name
    recorded in the test. *)
Lemma Report_test_Package r pkgName rep p t :
  Parse r pkgName = (Some rep, None) ->
  p ∈ Packages rep -> t ∈ Package_Tests p ->
  Package_Name p = Test_Package t.
Proof.
  intros (ts & ps0 & _ & _ & (_ & _ & Hps & _))%Parse_report Hp Ht.
  rewrite Forall_forall in Hps. destruct (Hps p Hp) as [Htests _].
  rewrite Htests in Ht. by apply list_elem_of_filter in Ht as [-> _].
Qed.

(** ** Properties of [Parse] *)

(** C1: the caller-supplied default package name labels the packages that
    only test-scoped events reveal. The code does not do so: [Parse] never
    reads [pkgName], so its result is the same for every default name. A
    reported test sits in the package named as the first event for the test
    says. On a single "run" line for test "t" of package "p" with the default
    name "default", the package of the report is named "p". *)
Theorem Parse_ignores_pkgName :
  (forall r pkgName1 pkgName2, Parse r pkgName1 = Parse r pkgName2) /\
  (forall r pkgName rep p t,
     Parse r pkgName = (Some rep, None) ->
     p ∈ Packages rep -> t ∈ Package_Tests p ->
     Package_Name p = Test_Package t /\
     Test_Package t = Package_of (events r) (Test_Name t)) /\
  Parse lone_test_stream "default" =
    (Some (mkReport [mkPackage "p" 0 [mkTest "t" "p" 0 FAIL [] "" 0] [] "" 0]), None).
Proof.
  split; [reflexivity|split].
  - intros r pkgName rep p t HParse Hp Ht. split.
    + by eapply Report_test_Package.
    + assert (Hin : t ∈ Report_tests rep) by by eapply elem_of_Report_tests.
      destruct (Report_test_of _ _ _ _ HParse Hin) as (_ & _ & Heq).
      by apply (f_equal Test_Package) in Heq.
  - vm_compute. reflexivity.
Qed.

(** C2, amended: [Parse] never writes the deprecated [Time] fields. In every
    state of the loop and in every report, the [Time] of each test and of each
    package is zero, whatever the duration. *)
Theorem Time_stays_zero r pkgName rep :
  Parse r pkgName = (Some rep, None) ->
  Forall (fun p => Package_Time p = 0 /\
                   Forall (fun t => Test_Time t = 0) (Package_Tests p))
         (Packages rep) /\
  forall ls, Forall (fun t => Test_Time t = 0) (st_tests (run_lines ls init_state)) /\
             Forall (fun p => Package_Time p = 0) (st_packages (run_lines ls init_state)).
Proof.
  intros HParse. split.
  - apply Forall_forall. intros p Hp. split.
    + by destruct (Package_Duration_last _ _ _ _ HParse Hp).
    + apply Forall_forall. intros t Ht.
      assert (Hin : t ∈ Report_tests rep) by by eapply elem_of_Report_tests.
      destruct (Report_test_of _ _ _ _ HParse Hin) as (_ & _ & ->). done.
  - intros ls. destruct (run_lines_inv ls) as [(_ & _ & Ht) (_ & _ & Hp)].
    split; (eapply Forall_impl; [eassumption|]); by intros x ->.
Qed.

(** C3: the four-line example of the spec. [Parse] returns no error and a
    report with the single package "p" of 20 milliseconds, which owns the
    single test "t": passed, 10 milliseconds, output ["ok\n"]. [Failures]
    counts no failure in it. *)
Theorem Parse_example pkgName :
  exists p t,
    Parse example_stream pkgName = (Some (mkReport [p]), None) /\
    Package_Name p = "p" /\ Package_Duration p = 20 * Millisecond /\
    Package_Tests p = [t] /\
    Test_Name t = "t" /\ Test_Result t = PASS /\
    Test_Duration t = 10 * Millisecond /\
    Test_Output t = ["ok" +:+ newline] /\
    Failures (mkReport [p]) = 0.
Proof.
  exists example_package, example_test.
  repeat split; vm_compute; reflexivity.
Qed.

(** C4: every test that some test-scoped event names is in the report
    exactly once: among the tests of all packages, exactly one carries its
    name, and no name occurs twice. *)
Theorem every_test_reported_once r pkgName rep :
  Parse r pkgName = (Some rep, None) ->
  NoDup (Test_Name <$> Report_tests rep) /\
  forall ev, ev ∈ events r -> LineOutput_Test ev <> "" ->
    length (filter (fun t => Test_Name t = LineOutput_Test ev) (Report_tests rep)) = 1%nat.
Proof.
  intros (ts & ps0 & (Hnd & Hnames & _) & _ & Hatt)%Parse_report.
  apply Report_tests_perm in Hatt.
  assert (Hnd' : NoDup (Test_Name <$> Report_tests rep)) by by rewrite Hatt.
  split; [done|]. intros ev Hev Hscope.
  apply filter_key_unique; [done|]. rewrite Hatt. apply Hnames.
  split; [done|]. apply Exists_exists. by exists ev.
Qed.

(** C5: the duration of a reported package is not zero only if a
    package-scoped "pass" event for its name occurred. Without such an event
    the duration is zero, whatever the durations of the tests the package
    owns; with one, the duration is the elapsed time of the last such event,
    converted to [time.Duration]. *)
Theorem package_Duration_from_pass r pkgName rep p :
  Parse r pkgName = (Some rep, None) -> p ∈ Packages rep ->
  (Package_Duration p <> 0 ->
   exists ev, ev ∈ events r /\ LineOutput_Test ev = "" /\
              LineOutput_Package ev = Package_Name p /\ Action ev = "pass") /\
  (~ Exists (package_pass (Package_Name p)) (events r) -> Package_Duration p = 0) /\
  (forall evs1 ev evs2,
     events r = evs1 ++ ev :: evs2 ->
     package_pass (Package_Name p) ev ->
     Forall (fun ev' => ~ package_pass (Package_Name p) ev') evs2 ->
     Package_Duration p = elapsed_Duration (Elapsed ev)).
Proof.
  intros HParse Hp.
  destruct (Package_Duration_last _ _ _ _ HParse Hp) as [Hd _].
  assert (Hnone : ~ Exists (package_pass (Package_Name p)) (events r) ->
                  Package_Duration p = 0).
  { intros Hno. by rewrite Hd, last_Duration_none. }
  split; [|split; [done|]].
  - intros Hnz.
    destruct (decide (Exists (package_pass (Package_Name p)) (events r)))
      as [Hex|Hno]; [|by apply Hnone in Hno].
    apply Exists_exists in Hex as (ev & Hin & [[Hscope Hname] Hpass]).
    by exists ev.
  - intros evs1 ev evs2 Hsplit Hev Hlast.
    rewrite Hd, Hsplit. by apply last_Duration_last.
Qed.

(** C6: the result of a reported test is pass if and only if some
    test-scoped event for its name has the action "pass"; otherwise it is
    fail, and never skip. The duration is the elapsed time of the last "pass"
    or "fail" event for the test, zero when there is none. *)
Theorem test_Result_from_pass r pkgName rep t :
  Parse r pkgName = (Some rep, None) -> t ∈ Report_tests rep ->
  Test_Name t <> "" /\
  (Test_Result t = PASS <->
   exists ev, ev ∈ events r /\ LineOutput_Test ev = Test_Name t /\
              Action ev = "pass") /\
  (Test_Result t <> PASS -> Test_Result t = FAIL) /\
  Test_Result t <> SKIP /\
  (~ Exists (test_end (Test_Name t)) (events r) -> Test_Duration t = 0) /\
  (forall evs1 ev evs2,
     events r = evs1 ++ ev :: evs2 ->
     test_end (Test_Name t) ev ->
     Forall (fun ev' => ~ test_end (Test_Name t) ev') evs2 ->
     Test_Duration t = elapsed_Duration (Elapsed ev)).
Proof.
  intros HParse Ht.
  destruct (Report_test_of _ _ _ _ HParse Ht) as (Hn & _ & Heq).
  apply (f_equal Test_Result) in Heq as Hres.
  apply (f_equal Test_Duration) in Heq as Hdur.
  simpl in Hres, Hdur. unfold Result_of in Hres.
  repeat split.
  - done.
  - intros Hpass. rewrite Hpass in Hres. case_decide; [|done].
    apply Exists_exists in H as (ev & Hin & [Hev Hact]). by exists ev.
  - intros (ev & Hin & Hev & Hact). rewrite Hres, decide_True; [done|].
    apply Exists_exists. by exists ev.
  - intros Hnot. rewrite Hres in *. by case_decide.
  - rewrite Hres. by case_decide.
  - intros Hno. by rewrite Hdur, last_Duration_none.
  - intros evs1 ev evs2 Hsplit Hev Hlast.
    rewrite Hdur, Hsplit. by apply last_Duration_last.
Qed.

(** C7, amended: [findTest] returns the latest-inserted entry with a
    matching name, but a second "run" event for a name creates no second
    entry, because the lookup finds the first. After two "run" events for a
    test and an "output" event for it, the discovered tests hold exactly one
    entry of that name, recorded under the package of the event that
    discovered it, and the fragment is appended to the output of that
    entry. *)
Theorem repeated_run_keeps_one_entry ls e1 e2 e3 n :
  n <> "" ->
  LineOutput_Test e1 = n -> LineOutput_Test e2 = n -> LineOutput_Test e3 = n ->
  Action e1 = "run" -> Action e2 = "run" -> Action e3 = "output" ->
  (exists t,
     filter (fun t => Test_Name t = n)
       (st_tests (run_lines (ls ++ [Record_line e1; Record_line e2; Record_line e3])
                    init_state)) = [t] /\
     Test_Output t = Output_of (decode <$> ls) n ++ [Output e3] /\
     (~ Exists (test_event n) (decode <$> ls) ->
      Test_Package t = LineOutput_Package e1)) /\
  (forall tests name i,
     findTest tests name = Some i ->
     exists t, tests !! i = Some t /\ Test_Name t = name /\
       forall j t', (i < j)%nat -> tests !! j = Some t' -> Test_Name t' <> name).
Proof.
  intros Hn H1 H2 H3 Ha1 Ha2 Ha3. split; [|intros tests name i; apply rfind_Some].
  set (lines := ls ++ _).
  destruct (run_lines_inv lines) as [(Hnd & Hnames & Hall) _].
  assert (Hevs : decode <$> lines = (((decode <$> ls) ++ [e1]) ++ [e2]) ++ [e3]).
  { unfold lines. rewrite fmap_app. by rewrite <- !(assoc_L (++)). }
  rewrite Hevs in Hnames, Hall.
  assert (Hin : n ∈ Test_Name <$> st_tests (run_lines lines init_state)).
  { apply Hnames. split; [done|]. apply Exists_snoc. by right. }
  pose proof (filter_key_unique Test_Name _ n Hnd Hin) as Hlen.
  destruct (filter _ _) as [|t [|t' l]] eqn:Hfilter; simplify_eq/=.
  exists t. split; [done|].
  assert (Ht : t ∈ filter (fun t => Test_Name t = LineOutput_Test e1)
                      (st_tests (run_lines lines init_state))).
  { rewrite Hfilter. by left. }
  apply list_elem_of_filter in Ht as [Hname Ht].
  rewrite Forall_forall in Hall. rewrite (Hall t Ht), Hname. simpl. split.
  - rewrite !Output_of_snoc. unfold test_output, test_event.
    rewrite (decide_False (P := _ /\ Action e1 = _)) by (rewrite Ha1; intuition congruence).
    rewrite (decide_False (P := _ /\ Action e2 = _)) by (rewrite Ha2; intuition congruence).
    rewrite decide_True by done. by rewrite !app_nil_r.
  - intros Hno. rewrite (Package_of_known _ e3), (Package_of_known _ e2).
    + by apply Package_of_first.
    + apply Exists_snoc. by right.
    + apply Exists_snoc. right. unfold test_event. congruence.
Qed.


(** C9: a read failure other than end of stream makes [Parse] return that
    error and no report, whatever was read before and whatever would follow.
    End of stream, explicit or by exhaustion, yields a report and no error,
    and a report is only ever returned without an error, at end of stream. *)
Theorem read_failure_aborts ls err rest pkgName :
  err <> io_EOF ->
  Parse ((inl <$> ls) ++ inr err :: rest) pkgName = (None, Some err) /\
  (exists rep, Parse ((inl <$> ls) ++ inr io_EOF :: rest) pkgName = (Some rep, None) /\
               Parse (inl <$> ls) pkgName = (Some rep, None)) /\
  (forall r rep e, Parse r pkgName = (Some rep, e) ->
                   e = None /\ stop_error r = None).
Proof.
  intros Herr. repeat split.
  - rewrite Parse_unfold, stop_error_app_inr. by rewrite decide_False.
  - eexists. rewrite !Parse_unfold, stop_error_app_inr, stop_error_inl.
    rewrite lines_read_app_inr, lines_read_inl. by rewrite decide_True.
  - rewrite Parse_unfold in H. by destruct (stop_error r); simplify_eq.
  - rewrite Parse_unfold in H. by destruct (stop_error r); simplify_eq.
Qed.


(** ** The order of discovery *)

Lemma first_seen_snoc l n :
  first_seen (l ++ [n]) = see (first_seen l) n.
Proof.
  unfold first_seen, see. rewrite reverse_snoc. simpl.
  destruct (decide_rel elem_of n (reverse l)) as [Hin|Hin].
  - rewrite decide_True; [done|].
    by rewrite elem_of_reverse, elem_of_remove_dups.
  - rewrite decide_False.
    + by rewrite reverse_cons.
    + by rewrite elem_of_reverse, elem_of_remove_dups.
Qed.

Lemma first_seen_nil : first_seen [] = [].
Proof. reflexivity. Qed.

Lemma elem_of_first_seen l n : n ∈ first_seen l <-> n ∈ l.
Proof.
  unfold first_seen.
  by rewrite elem_of_reverse, elem_of_remove_dups, elem_of_reverse.
Qed.

Lemma NoDup_first_seen l : NoDup (first_seen l).
Proof.
  unfold first_seen. rewrite reverse_Permutation. apply NoDup_remove_dups.
Qed.

Lemma fold_see_first_seen a b :
  fold_left see b (first_seen a) = first_seen (a ++ b).
Proof.
  induction b as [|n b IH] using rev_ind.
  - by rewrite app_nil_r.
  - rewrite fold_left_app, IH. simpl.
    by rewrite (assoc_L (++)), first_seen_snoc.
Qed.

Lemma upsert_see {A} (key : A -> string) l name fresh f :
  key fresh = name -> (forall x, key (f x) = key x) ->
  key <$> upsert key l name fresh f = see (key <$> l) name.
Proof. intros Hfresh Hf. by rewrite upsert_keys. Qed.

Lemma test_names_snoc evs ev :
  test_names (evs ++ [ev]) =
  test_names evs ++ (if decide (LineOutput_Test ev = "") then [] else [LineOutput_Test ev]).
Proof.
  unfold test_names. rewrite filter_snoc, fmap_app.
  destruct (decide (LineOutput_Test ev = "")) as [Heq|Hne].
  - by rewrite decide_False by (intros Hne; by apply Hne).
  - by rewrite decide_True.
Qed.

Lemma package_names_snoc evs ev :
  package_names (evs ++ [ev]) =
  package_names evs ++ (if decide (LineOutput_Test ev = "") then [LineOutput_Package ev] else []).
Proof.
  unfold package_names. rewrite filter_snoc, fmap_app.
  by destruct (decide (LineOutput_Test ev = "")).
Qed.

(** The discovered tests and packages are in the order in which the events
    first name them. *)
Lemma run_lines_names ls :
  Test_Name <$> st_tests (run_lines ls init_state) =
    first_seen (test_names (decode <$> ls)) /\
  Package_Name <$> st_packages (run_lines ls init_state) =
    first_seen (package_names (decode <$> ls)).
Proof.
  induction ls as [|l ls [IHt IHp]] using rev_ind; [done|].
  rewrite run_lines_snoc, fmap_app. simpl.
  rewrite test_names_snoc, package_names_snoc.
  destruct (decide (LineOutput_Test (decode l) = "")) as [Hscope|Hscope].
  - rewrite parse_line_packages by done. simpl.
    rewrite app_nil_r, first_seen_snoc, <- IHp. split; [done|].
    apply upsert_see; [done|apply on_Package_Name].
  - rewrite parse_line_tests by done. simpl.
    rewrite app_nil_r, first_seen_snoc, <- IHt. split; [|done].
    apply upsert_see; [done|apply on_Test_Name].
Qed.

Lemma Forall_eq_fmap {A} (key : A -> string) (g : string -> A) (l : list A) :
  Forall (fun x => x = g (key x)) l -> l = g <$> (key <$> l).
Proof.
  induction 1 as [|x l Hx _ IH]; csimpl; [done|]. by rewrite <- Hx, <- IH.
Qed.

(** The discovered tests are the tests the events describe. *)
Lemma run_lines_tests_of ls :
  st_tests (run_lines ls init_state) = tests_of (decode <$> ls).
Proof.
  destruct (run_lines_inv ls) as [(_ & _ & Hall) _].
  destruct (run_lines_names ls) as [Hnames _].
  unfold tests_of. rewrite <- Hnames. by apply Forall_eq_fmap.
Qed.

(** ** The report in closed form *)

Lemma attach_names ts ps0 :
  Package_Name <$> fold_left attach_test ts ps0 =
  fold_left see (Test_Package <$> ts) (Package_Name <$> ps0).
Proof.
  revert ps0. induction ts as [|t ts IH]; intros ps0; csimpl; [done|].
  rewrite IH. f_equal. rewrite attach_test_upsert. by apply upsert_see.
Qed.

Lemma attached_package_view evs ts ps0 ps p :
  packages_inv evs ps0 -> attached ps0 ts ps -> p ∈ ps ->
  p = mkPackage (Package_Name p) (last_Duration (package_pass (Package_Name p)) evs)
        (filter (fun t => Test_Package t = Package_Name p) ts)
        benchmarks coveragePct 0.
Proof.
  intros (_ & Hnames & Hall) (_ & _ & Hps & _) Hp.
  rewrite Forall_forall in Hps. destruct (Hps p Hp) as [Htests Horigin].
  destruct p as [n d tests b c time]. simpl in *. subst tests.
  destruct Horigin as [Hold|[Hnew Heq]].
  - rewrite Forall_forall in Hall. apply Hall in Hold.
    unfold package_of, Package_set_Tests in Hold. simpl in Hold.
    by injection Hold as -> -> -> ->.
  - unfold new_Package, Package_set_Tests in Heq. simpl in Heq.
    injection Heq as -> -> -> ->. f_equal.
    rewrite last_Duration_none; [done|].
    intros Hex. apply Hnew, Hnames. eapply Exists_impl; [exact Hex|].
    by intros ev [Hev _].
Qed.

(** Report assembly yields the report that the events describe. *)
Lemma assemble_report_of ls :
  assemble (run_lines ls init_state) = report_of (decode <$> ls).
Proof.
  unfold assemble, report_of. f_equal.
  destruct (run_lines_inv ls) as [_ Hp].
  destruct (run_lines_names ls) as [_ Hnames].
  pose proof (fold_attached (st_packages (run_lines ls init_state))
                (st_tests (run_lines ls init_state))
                (proj1 Hp) (run_lines_no_Tests ls)) as Hatt.
  set (ps := fold_left _ _ _) in *.
  assert (Hps : Package_Name <$> ps = report_package_names (decode <$> ls)).
  { unfold ps, report_package_names.
    by rewrite attach_names, Hnames, fold_see_first_seen, run_lines_tests_of. }
  rewrite <- Hps. apply Forall_eq_fmap, Forall_forall. intros p Hin.
  unfold package_view. rewrite <- run_lines_tests_of.
  by eapply attached_package_view.
Qed.

Lemma Parse_Some_report_of r pkgName rep :
  Parse r pkgName = (Some rep, None) -> rep = report_of (events r).
Proof.
  rewrite Parse_unfold. destruct (stop_error r); [discriminate|].
  intros [= <-]. apply assemble_report_of.
Qed.

(** ** Further properties of the lookups, [Failures] and [Parse] *)

Lemma count_failures ts count :
  fold_left (fun count t => if decide (Test_Result t = FAIL) then count + 1 else count)
            ts count =
  count + Z.of_nat (length (filter (fun t => Test_Result t = FAIL) ts)).
Proof.
  revert count. induction ts as [|t ts IH]; intros count; simpl; [lia|].
  rewrite IH, filter_cons. destruct (decide (Test_Result t = FAIL)); simpl; lia.
Qed.

Lemma Failures_failed_tests rep :
  Failures rep = Z.of_nat (length (failed_tests rep)).
Proof.
  unfold Failures, failed_tests, Report_tests.
  assert (Hgen : forall ps c,
    fold_left
      (fun count p =>
         fold_left
           (fun count t => if decide (Test_Result t = FAIL) then count + 1 else count)
           (Package_Tests p) count) ps c =
    c + Z.of_nat (length (filter (fun t => Test_Result t = FAIL)
                            (concat (Package_Tests <$> ps))))).
  { induction ps as [|p ps IH]; intros c; csimpl; [lia|].
    rewrite IH, count_failures, filter_app, length_app. lia. }
  rewrite Hgen. lia.
Qed.

(** X1: [Failures] is the number of tests of the report whose result is
    fail, counted over all packages; it lies between zero and the number of
    tests, and it is zero for a report without packages. *)
Theorem Failures_counts_failed_tests rep :
  Failures rep =
    Z.of_nat (length (filter (fun t => Test_Result t = FAIL) (Report_tests rep))) /\
  0 <= Failures rep <= Z.of_nat (length (Report_tests rep)) /\
  Failures (mkReport []) = 0.
Proof.
  rewrite Failures_failed_tests. unfold failed_tests.
  pose proof (length_filter (fun t => Test_Result t = FAIL) (Report_tests rep)).
  repeat split; lia.
Qed.

(** X2: [findTest] and [findPackage] return nil exactly when no entry
    carries the name. Otherwise [findPackage] returns the entry with the
    highest index among those that carry it. *)
Theorem lookups_find_the_last_match :
  (forall tests name, findTest tests name = None <-> name ∉ Test_Name <$> tests) /\
  (forall packages name,
     findPackage packages name = None <-> name ∉ Package_Name <$> packages) /\
  (forall packages name i,
     findPackage packages name = Some i ->
     exists p, packages !! i = Some p /\ Package_Name p = name /\
       forall j p', (i < j)%nat -> packages !! j = Some p' -> Package_Name p' <> name).
Proof.
  assert (Hnone : forall {A} (key : A -> string) l name,
            rfind key l name = None <-> name ∉ key <$> l).
  { intros A key l name. split; [apply rfind_None|].
    intros Hnot. destruct (rfind key l name) as [i|] eqn:Hfind; [|done].
    destruct (rfind_Some _ _ _ _ Hfind) as (x & Hx & Hk & _).
    destruct Hnot. rewrite <- Hk.
    apply list_elem_of_fmap_2. by eapply list_elem_of_lookup_2. }
  split; [|split].
  - intros tests name. apply (Hnone _ Test_Name).
  - intros packages name. apply (Hnone _ Package_Name).
  - intros packages name i. apply rfind_Some.
Qed.

(** X3: [Parse] in closed form. When the reader stops with a failure,
    [Parse] returns that error and no report. Otherwise it returns the report
    that the events describe: the packages in the order of
    [report_package_names], each with the duration of its last
    package-scoped "pass" event and the tests recorded under its name, in the
    order the events discover them. *)
Theorem Parse_computes_report_of r pkgName :
  Parse r pkgName =
  match stop_error r with
  | None => (Some (report_of (events r)), None)
  | Some err => (None, Some err)
  end.
Proof.
  rewrite Parse_unfold. destruct (stop_error r); [done|].
  by rewrite assemble_report_of.
Qed.

Lemma run_lines_stderr ls st :
  st_stderr (run_lines ls st) = st_stderr st ++ ((fun l => Output (decode l)) <$> ls).
Proof.
  revert st. induction ls as [|l ls IH]; intros st; csimpl.
  - by rewrite app_nil_r.
  - unfold run_lines in *. simpl. rewrite IH.
    assert (Hone : st_stderr (parse_line l st) = st_stderr st ++ [Output (decode l)]).
    { destruct (decide (LineOutput_Test (decode l) = "")).
      - by rewrite parse_line_packages.
      - by rewrite parse_line_tests. }
    rewrite Hone. by rewrite <- (assoc_L (++)).
Qed.

(** X4: [Parse] writes to the standard error stream, for every line it
    reads and in the order read, the output fragment that decoding left in
    [lineoutput], whatever the event is about and whether or not decoding
    reported an error. The fragments are written as well when the read loop
    ends with a failure. *)
Theorem stderr_mirrors_every_line r pkgName :
  snd (Parse_io r pkgName) = (fun l => Output (decode l)) <$> lines_read r.
Proof.
  unfold Parse_io. rewrite read_loop_run.
  destruct (stop_error r); simpl; by rewrite run_lines_stderr.
Qed.

Lemma tests_of_Name evs :
  Test_Name <$> tests_of evs = first_seen (test_names evs).
Proof.
  unfold tests_of. rewrite <- list_fmap_compose. apply list_fmap_id.
Qed.

Lemma tests_of_Package evs :
  Test_Package <$> tests_of evs = Package_of evs <$> first_seen (test_names evs).
Proof. unfold tests_of. by rewrite <- list_fmap_compose. Qed.

Lemma report_of_names evs :
  Package_Name <$> Packages (report_of evs) = report_package_names evs.
Proof.
  unfold report_of. simpl. rewrite <- list_fmap_compose. apply list_fmap_id.
Qed.

Lemma elem_of_report_of evs p :
  p ∈ Packages (report_of evs) ->
  p = package_view evs (Package_Name p) /\
  Package_Name p ∈ report_package_names evs.
Proof.
  intros (n & -> & Hn)%list_elem_of_fmap. done.
Qed.

Lemma elem_of_tests_of evs t :
  t ∈ tests_of evs ->
  t = test_of evs (Test_Name t) /\ Test_Name t ∈ test_names evs.
Proof.
  unfold tests_of. intros (n & -> & Hn)%list_elem_of_fmap. split; [done|].
  simpl. by apply elem_of_first_seen.
Qed.

Lemma fold_see_prefix names seen :
  seen `prefix_of` fold_left see names seen.
Proof.
  revert seen. induction names as [|n names IH]; intros seen; simpl; [done|].
  etrans; [|apply IH]. unfold see. case_decide; [done|].
  by apply prefix_app_r.
Qed.

Lemma length_first_seen names :
  (length (first_seen names) <= length names)%nat.
Proof.
  induction names as [|n names IH] using rev_ind; [done|].
  rewrite first_seen_snoc, length_app. unfold see. simpl.
  case_decide; [lia|]. rewrite length_app. simpl. lia.
Qed.

Lemma filter_fmap_test_of evs n (names : list string) :
  Test_Name <$> filter (fun t => Test_Package t = n) (test_of evs <$> names) =
  filter (fun m => Package_of evs m = n) names.
Proof.
  induction names as [|m names IH]; csimpl; [done|].
  rewrite !filter_cons. simpl.
  destruct (decide (Package_of evs m = n)); csimpl; by rewrite IH.
Qed.

(** X5: the packages of the report are named, without repetition, first as
    the package-scoped events name them, in the order of first mention, and
    then as the discovered tests name them, test by test in discovery order,
    where a test counts under the package of the first event for it. *)
Theorem packages_in_order_of_first_mention r pkgName rep :
  Parse r pkgName = (Some rep, None) ->
  Package_Name <$> Packages rep =
    first_seen (package_names (events r) ++
                (Package_of (events r) <$> first_seen (test_names (events r)))) /\
  first_seen (package_names (events r)) `prefix_of` (Package_Name <$> Packages rep) /\
  NoDup (Package_Name <$> Packages rep).
Proof.
  intros ->%Parse_Some_report_of.
  rewrite report_of_names. unfold report_package_names.
  rewrite tests_of_Package. split; [done|split].
  - rewrite <- fold_see_first_seen. apply fold_see_prefix.
  - apply NoDup_first_seen.
Qed.

(** X6: the tests of a reported package are the tests whose first event
    carries the name of the package, in the order in which the stream first
    mentions them. *)
Theorem package_tests_in_discovery_order r pkgName rep p :
  Parse r pkgName = (Some rep, None) -> p ∈ Packages rep ->
  Test_Name <$> Package_Tests p =
    filter (fun n => Package_of (events r) n = Package_Name p)
           (first_seen (test_names (events r))).
Proof.
  intros ->%Parse_Some_report_of [-> _]%elem_of_report_of. simpl.
  apply filter_fmap_test_of.
Qed.

(** X7: the output of a reported test is the sequence of the output
    fragments of the "output" events for the test, in stream order; events
    with any other action add nothing to it. *)
Theorem test_output_in_stream_order r pkgName rep t :
  Parse r pkgName = (Some rep, None) -> t ∈ Report_tests rep ->
  Test_Output t =
    Output <$> filter (fun ev => LineOutput_Test ev = Test_Name t /\
                                 Action ev = "output") (events r).
Proof.
  intros HParse Ht.
  destruct (Report_test_of _ _ _ _ HParse Ht) as (_ & _ & Heq).
  by apply (f_equal Test_Output) in Heq.
Qed.

(** X8: [Parse] never populates the benchmarks, the coverage percentage or
    the subtest indent: in every report, each package has no benchmarks and
    an empty coverage string, and each test an empty indent. *)
Theorem unpopulated_fields_stay_empty r pkgName rep p :
  Parse r pkgName = (Some rep, None) -> p ∈ Packages rep ->
  Package_Benchmarks p = [] /\ Package_CoveragePct p = "" /\
  Forall (fun t => Test_SubtestIndent t = "") (Package_Tests p).
Proof.
  intros ->%Parse_Some_report_of [-> _]%elem_of_report_of.
  repeat split. simpl. apply Forall_forall.
  intros t [_ Ht]%list_elem_of_filter.
  by apply elem_of_tests_of in Ht as [-> _].
Qed.

Lemma length_scopes (evs : list LineOutput) :
  (length (package_names evs) + length (test_names evs) = length evs)%nat.
Proof.
  unfold package_names, test_names. rewrite !length_fmap, <- length_app.
  apply Permutation_length.
  apply (filter_app_complement (fun ev => LineOutput_Test ev = "")).
Qed.

Lemma Report_tests_report_of evs :
  Report_tests (report_of evs) ≡ₚ tests_of evs.
Proof.
  set (ls := Record_line <$> evs).
  assert (Hevs : decode <$> ls = evs).
  { unfold ls. rewrite <- list_fmap_compose. apply list_fmap_id. }
  rewrite <- Hevs, <- assemble_report_of, <- run_lines_tests_of.
  destruct (run_lines_inv ls) as [_ Hp].
  pose proof (fold_attached _ (st_tests (run_lines ls init_state))
                (proj1 Hp) (run_lines_no_Tests ls)) as (_ & _ & _ & Hperm).
  exact Hperm.
Qed.

(** X9: a report is no larger than its input. It holds at most one test per
    test-scoped line and at most one package per line read, and it has no
    package at all exactly when no line was read. *)
Theorem report_size_bounded_by_lines r pkgName rep :
  Parse r pkgName = (Some rep, None) ->
  (length (Report_tests rep) <=
   length (filter (fun ev => LineOutput_Test ev <> "") (events r)))%nat /\
  (length (Packages rep) <= length (lines_read r))%nat /\
  (Packages rep = [] <-> lines_read r = []).
Proof.
  intros ->%Parse_Some_report_of.
  assert (Htests : (length (tests_of (events r)) <= length (test_names (events r)))%nat).
  { unfold tests_of. rewrite length_fmap. apply length_first_seen. }
  split; [|split].
  - rewrite Report_tests_report_of. unfold test_names in Htests.
    by rewrite length_fmap in Htests.
  - unfold report_of. simpl. rewrite length_fmap. unfold report_package_names.
    etrans; [apply length_first_seen|]. rewrite length_app, length_fmap.
    pose proof (length_scopes (events r)) as Hlen.
    unfold events in Hlen at 3. rewrite length_fmap in Hlen. lia.
  - split.
    + intros Hnil. destruct (lines_read r) as [|l ls] eqn:Hlines; [done|].
      exfalso. apply (f_equal (fmap Package_Name)) in Hnil.
      rewrite report_of_names in Hnil. unfold report_package_names in Hnil.
      assert (Hev : decode l ∈ events r).
      { unfold events. rewrite Hlines. by left. }
      assert (Hin : exists n, n ∈ first_seen (package_names (events r) ++
                                 (Test_Package <$> tests_of (events r)))).
      { rewrite tests_of_Package.
        destruct (decide (LineOutput_Test (decode l) = "")) as [Hscope|Hscope].
        - exists (LineOutput_Package (decode l)).
          apply elem_of_first_seen, elem_of_app. left.
          by apply list_elem_of_fmap_2, list_elem_of_filter.
        - exists (Package_of (events r) (LineOutput_Test (decode l))).
          apply elem_of_first_seen, elem_of_app. right.
          apply list_elem_of_fmap_2, elem_of_first_seen.
          by apply list_elem_of_fmap_2, list_elem_of_filter. }
      destruct Hin as [n Hn]. rewrite Hnil in Hn. by apply elem_of_nil in Hn.
    + intros Hnil. unfold events. by rewrite Hnil.
Qed.

(** X10: [Failures] of the report that [Parse] returns is zero exactly when
    every test that a test-scoped event names has an event with the action
    "pass". *)
Theorem no_failures_iff_every_test_passed r pkgName rep :
  Parse r pkgName = (Some rep, None) ->
  (Failures rep = 0 <->
   forall ev, ev ∈ events r -> LineOutput_Test ev <> "" ->
     exists ev', ev' ∈ events r /\ LineOutput_Test ev' = LineOutput_Test ev /\
                 Action ev' = "pass").
Proof.
  intros HParse. rewrite Failures_failed_tests. unfold failed_tests.
  destruct (Parse_report _ _ _ HParse) as (ts & ps0 & (_ & Hnames & _) & _ & Hatt).
  apply Report_tests_perm in Hatt. split.
  - intros Hzero ev Hev Hscope.
    assert (Hin : LineOutput_Test ev ∈ Test_Name <$> ts).
    { apply Hnames. split; [done|]. apply Exists_exists. by exists ev. }
    apply list_elem_of_fmap in Hin as (t & Hname & Ht).
    rewrite <- Hatt in Ht.
    destruct (Report_test_of _ _ _ _ HParse Ht) as (_ & _ & Heq).
    apply (f_equal Test_Result) in Heq. simpl in Heq. unfold Result_of in Heq.
    destruct (decide (Exists (test_pass (Test_Name t)) (events r))) as [Hex|Hno].
    + apply Exists_exists in Hex as (ev' & Hev' & Hname' & Hact).
      exists ev'. unfold test_event in Hname'. by rewrite Hname.
    + exfalso.
      assert (Hfail : t ∈ filter (fun t => Test_Result t = FAIL) (Report_tests rep)).
      { by apply list_elem_of_filter. }
      destruct (filter _ _) as [|t' l]; [by apply elem_of_nil in Hfail|].
      simpl in Hzero. lia.
  - intros Hpass. rewrite filter_none; [done|].
    rewrite Exists_exists. intros (t & Ht & Hfail).
    destruct (Report_test_of _ _ _ _ HParse Ht) as (Hn & Hex & Heq).
    apply Exists_exists in Hex as (ev & Hev & Hname).
    unfold test_event in Hname.
    destruct (Hpass ev Hev) as (ev' & Hev' & Hname' & Hact); [congruence|].
    apply (f_equal Test_Result) in Heq. simpl in Heq. unfold Result_of in Heq.
    rewrite decide_True in Heq; [congruence|].
    apply Exists_exists. exists ev'. split; [done|]. split; [|done].
    unfold test_event. congruence.
Qed.

Lemma filter_filter_keep {A} (P Q : A -> Prop)
    `{!forall x, Decision (P x)} `{!forall x, Decision (Q x)} (l : list A) :
  (forall x, Q x -> P x) -> filter P (filter Q l) = filter Q l.
Proof.
  intros Himp. induction l as [|x l IH]; [done|].
  rewrite (filter_cons Q). destruct (decide (Q x)) as [HQ|HQ]; [|done].
  rewrite filter_cons_True by auto. by rewrite IH.
Qed.

Lemma filter_filter_drop {A} (P Q : A -> Prop)
    `{!forall x, Decision (P x)} `{!forall x, Decision (Q x)} (l : list A) :
  (forall x, Q x -> ~ P x) -> filter P (filter Q l) = [].
Proof.
  intros Himp. induction l as [|x l IH]; [done|].
  rewrite (filter_cons Q). destruct (decide (Q x)) as [HQ|HQ]; [|done].
  rewrite filter_cons_False by auto. done.
Qed.

(** The discovered tests depend on the test-scoped lines only, and the
    packages of the loop on the package-scoped lines only. *)
Lemma run_lines_frame ls :
  st_tests (run_lines ls init_state) =
    st_tests (run_lines (filter test_scoped_line ls) init_state) /\
  st_packages (run_lines ls init_state) =
    st_packages (run_lines (filter (fun l => ~ test_scoped_line l) ls) init_state).
Proof.
  induction ls as [|l ls [IHt IHp]] using rev_ind; [done|].
  rewrite !filter_snoc, run_lines_snoc.
  destruct (decide (test_scoped_line l)) as [Hscope|Hscope].
  - rewrite decide_False by tauto. rewrite app_nil_r, run_lines_snoc.
    rewrite !parse_line_tests by done. simpl. by rewrite IHt, IHp.
  - rewrite decide_True by done. rewrite app_nil_r, run_lines_snoc.
    assert (Hpkg : LineOutput_Test (decode l) = "").
    { unfold test_scoped_line in Hscope.
      by destruct (decide (LineOutput_Test (decode l) = "")). }
    rewrite !parse_line_packages by done. simpl. by rewrite IHt, IHp.
Qed.

(** X11: the report does not depend on how the package-scoped lines are
    interleaved with the test-scoped ones: moving all package-scoped lines in
    front of the test-scoped lines, each group in its order, leaves the result
    of [Parse] unchanged. *)
Theorem package_lines_may_come_first ls pkgName :
  Parse (inl <$> (filter (fun l => ~ test_scoped_line l) ls ++
                  filter test_scoped_line ls)) pkgName =
  Parse (inl <$> ls) pkgName.
Proof.
  rewrite !Parse_unfold, !stop_error_inl, !lines_read_inl.
  do 2 f_equal. unfold assemble.
  destruct (run_lines_frame ls) as [Ht Hp].
  destruct (run_lines_frame (filter (fun l => ~ test_scoped_line l) ls ++
                             filter test_scoped_line ls)) as [Ht' Hp'].
  rewrite Ht, Hp, Ht', Hp'. rewrite !filter_app.
  rewrite (filter_filter_drop test_scoped_line) by tauto.
  rewrite (filter_filter_keep test_scoped_line test_scoped_line) by tauto.
  rewrite (filter_filter_keep (fun l => ~ test_scoped_line l)
             (fun l => ~ test_scoped_line l)) by tauto.
  rewrite (filter_filter_drop (fun l => ~ test_scoped_line l) test_scoped_line)
    by tauto.
  by rewrite app_nil_r.
Qed.

(** X12: reading further lines only appends to what the loop has
    discovered: the names of the tests and of the packages known after a part
    of the stream are, in the same order, the first names known after any
    continuation of it. *)
Theorem discovery_only_appends ls1 ls2 :
  Test_Name <$> st_tests (run_lines ls1 init_state)
    `prefix_of` Test_Name <$> st_tests (run_lines (ls1 ++ ls2) init_state) /\
  Package_Name <$> st_packages (run_lines ls1 init_state)
    `prefix_of` Package_Name <$> st_packages (run_lines (ls1 ++ ls2) init_state).
Proof.
  destruct (run_lines_names ls1) as [Ht1 Hp1].
  destruct (run_lines_names (ls1 ++ ls2)) as [Ht Hp].
  rewrite Ht1, Hp1, Ht, Hp, fmap_app.
  unfold test_names, package_names. rewrite !filter_app, !fmap_app.
  rewrite <- !fold_see_first_seen. split; apply fold_see_prefix.
Qed.

End Parse.

(** ** The properties at concrete inputs *)

(** The decoded elapsed times of the example are the [float32] nearest to
    0.01 and 0.02: the error is at most half a unit in the last place. *)
Example float32_one_hundredth :
  float32_of_ratio 1 100 = S754_finite false 10737418 (-30) /\
  2 * Z.abs (10737418 * 100 - 1 * 2 ^ 30) <= 100.
Proof. split; [vm_compute; reflexivity|lia]. Qed.

Example float32_two_hundredths :
  float32_of_ratio 2 100 = S754_finite false 10737418 (-29) /\
  2 * Z.abs (10737418 * 100 - 2 * 2 ^ 29) <= 100.
Proof. split; [vm_compute; reflexivity|lia]. Qed.

(** C2, as stated, fails on the example of the spec: the test lasts 10
    milliseconds and its [Time] is zero. *)
Lemma Time_not_in_sync :
  Parse x86_64_unrepresentable example_stream "" =
    (Some (mkReport [example_package]), None) /\
  ~ Time_in_sync (mkReport [example_package]).
Proof.
  split; [vm_compute; reflexivity|].
  unfold Time_in_sync. intros Hsync.
  apply Forall_cons in Hsync as [[Hp _] _]. vm_compute in Hp. discriminate.
Qed.

Lemma Time_stays_zero_witness :
  Parse x86_64_unrepresentable example_stream "" =
    (Some (mkReport [example_package]), None) /\
  Forall (fun p => Package_Time p = 0 /\
                   Forall (fun t => Test_Time t = 0) (Package_Tests p))
         (Packages (mkReport [example_package])).
Proof.
  split; [vm_compute; reflexivity|].
  apply (Time_stays_zero x86_64_unrepresentable example_stream ""
           (mkReport [example_package])).
  vm_compute; reflexivity.
Defined.

Lemma every_test_reported_once_witness :
  Parse x86_64_unrepresentable example_stream "" =
    (Some (mkReport [example_package]), None) /\
  NoDup (Test_Name <$> Report_tests (mkReport [example_package])).
Proof.
  split; [vm_compute; reflexivity|].
  apply (every_test_reported_once x86_64_unrepresentable example_stream ""
           (mkReport [example_package])).
  vm_compute; reflexivity.
Defined.

Lemma package_Duration_from_pass_witness :
  Parse x86_64_unrepresentable example_stream "" =
    (Some (mkReport [example_package]), None) /\
  example_package ∈ Packages (mkReport [example_package]) /\
  (~ Exists (package_pass (Package_Name example_package)) (events example_stream) ->
   Package_Duration example_package = 0).
Proof.
  split; [vm_compute; reflexivity|]. split; [apply list_elem_of_here|].
  apply (package_Duration_from_pass x86_64_unrepresentable example_stream ""
           (mkReport [example_package]) example_package).
  - vm_compute; reflexivity.
  - apply list_elem_of_here.
Defined.

Lemma test_Result_from_pass_witness :
  Parse x86_64_unrepresentable example_stream "" =
    (Some (mkReport [example_package]), None) /\
  example_test ∈ Report_tests (mkReport [example_package]) /\
  Test_Result example_test <> SKIP.
Proof.
  split; [vm_compute; reflexivity|]. split; [apply list_elem_of_here|].
  apply (test_Result_from_pass x86_64_unrepresentable example_stream ""
           (mkReport [example_package]) example_test).
  - vm_compute; reflexivity.
  - apply list_elem_of_here.
Defined.

(** C7, as stated, fails: after two "run" events for "T" and an "output"
    event for it, the only entry named "T" is the one the first event
    created, the fragment sits on it, and there is no later entry for the
    fragment to sit on. *)
Lemma no_later_entry_for_repeated_run :
  st_tests (run_lines x86_64_unrepresentable repeated_run_lines init_state) =
    [mkTest "T" "p" 0 FAIL ["x"] "" 0] /\
  ~ output_on_later_entry
      (st_tests (run_lines x86_64_unrepresentable repeated_run_lines init_state))
      "T" "x".
Proof.
  split; [vm_compute; reflexivity|].
  intros (i & j & t1 & t2 & Hij & H1 & H2 & _).
  apply lookup_lt_Some in H2. vm_compute in H2.
  apply lookup_lt_Some in H1. lia.
Qed.

Lemma repeated_run_keeps_one_entry_witness :
  exists t,
    filter (fun t => Test_Name t = "T")
      (st_tests (run_lines x86_64_unrepresentable ([] ++ repeated_run_lines)
                   init_state)) = [t] /\
    Test_Output t = Output_of (decode <$> []) "T" ++ ["x"] /\
    (~ Exists (test_event "T") (decode <$> []) -> Test_Package t = "p").
Proof.
  apply (repeated_run_keeps_one_entry x86_64_unrepresentable []
           (mkLineOutput 0 "run" "p" "T" "" no_Elapsed)
           (mkLineOutput 0 "run" "p" "T" "" no_Elapsed)
           (mkLineOutput 0 "output" "p" "T" "x" no_Elapsed) "T");
    (reflexivity || discriminate).
Defined.



Lemma read_failure_aborts_witness :
  broken_pipe <> io_EOF /\
  Parse x86_64_unrepresentable
    ((inl <$> broken_lines) ++ inr broken_pipe :: [inl Malformed_line]) "" =
  (None, Some broken_pipe).
Proof.
  split; [discriminate|].
  apply (read_failure_aborts x86_64_unrepresentable broken_lines broken_pipe
           [inl Malformed_line] "").
  discriminate.
Defined.



(** ** The further properties at concrete inputs *)

Lemma packages_in_order_of_first_mention_witness :
  Parse x86_64_unrepresentable garbage_stream "" = (Some garbage_report, None) /\
  NoDup (Package_Name <$> Packages garbage_report).
Proof.
  split; [vm_compute; reflexivity|].
  apply (packages_in_order_of_first_mention x86_64_unrepresentable
           garbage_stream "" garbage_report).
  vm_compute; reflexivity.
Defined.

Lemma package_tests_in_discovery_order_witness :
  Parse x86_64_unrepresentable example_stream "" =
    (Some (mkReport [example_package]), None) /\
  Test_Name <$> Package_Tests example_package =
    filter (fun n => Package_of (events example_stream) n = Package_Name example_package)
           (first_seen (test_names (events example_stream))).
Proof.
  split; [vm_compute; reflexivity|].
  apply (package_tests_in_discovery_order x86_64_unrepresentable example_stream ""
           (mkReport [example_package]) example_package).
  - vm_compute; reflexivity.
  - apply list_elem_of_here.
Defined.

Lemma test_output_in_stream_order_witness :
  Parse x86_64_unrepresentable example_stream "" =
    (Some (mkReport [example_package]), None) /\
  Test_Output example_test =
    Output <$> filter (fun ev => LineOutput_Test ev = Test_Name example_test /\
                                 Action ev = "output") (events example_stream).
Proof.
  split; [vm_compute; reflexivity|].
  apply (test_output_in_stream_order x86_64_unrepresentable example_stream ""
           (mkReport [example_package]) example_test).
  - vm_compute; reflexivity.
  - apply list_elem_of_here.
Defined.

Lemma unpopulated_fields_stay_empty_witness :
  Parse x86_64_unrepresentable example_stream "" =
    (Some (mkReport [example_package]), None) /\
  Package_Benchmarks example_package = [] /\
  Package_CoveragePct example_package = "" /\
  Forall (fun t => Test_SubtestIndent t = "") (Package_Tests example_package).
Proof.
  split; [vm_compute; reflexivity|].
  apply (unpopulated_fields_stay_empty x86_64_unrepresentable example_stream ""
           (mkReport [example_package]) example_package).
  - vm_compute; reflexivity.
  - apply list_elem_of_here.
Defined.

Lemma report_size_bounded_by_lines_witness :
  Parse x86_64_unrepresentable garbage_stream "" = (Some garbage_report, None) /\
  (length (Packages garbage_report) <= length (lines_read garbage_stream))%nat.
Proof.
  split; [vm_compute; reflexivity|].
  apply (report_size_bounded_by_lines x86_64_unrepresentable garbage_stream ""
           garbage_report).
  vm_compute; reflexivity.
Defined.

Lemma no_failures_iff_every_test_passed_witness :
  Parse x86_64_unrepresentable example_stream "" =
    (Some (mkReport [example_package]), None) /\
  (Failures (mkReport [example_package]) = 0 <->
   forall ev, ev ∈ events example_stream -> LineOutput_Test ev <> "" ->
     exists ev', ev' ∈ events example_stream /\
                 LineOutput_Test ev' = LineOutput_Test ev /\ Action ev' = "pass").
Proof.
  split; [vm_compute; reflexivity|].
  apply (no_failures_iff_every_test_passed x86_64_unrepresentable example_stream ""
           (mkReport [example_package])).
  vm_compute; reflexivity.
Defined.
